(** * NestDoorbellConsumer: the clip server and the event consumer

    A shallow embedding of the two programs of the repository:

    - the clip server ([parseUnixTimeOrDefault], [listTargetDirectories] and
      the [/list] handler of its [main]);
    - the event consumer ([Init], [Process], [processResourceUpdateEvent],
      the three event handlers, [downloadAndSaveCameraClipPreview] and the
      subscription callback of its [main]).

    Calls into Go's standard library are modelled after the documented
    behaviour of the package ([time], [strconv], [fmt], [path/filepath]);
    calls whose result depends on the outside world (the filesystem under
    a walk, HTTP, JSON, MIME tables, the layout of a time) are fields of
    the environments [ServerEnv] and [ConsumerEnv]. *)

From Stdlib Require Import ZArith List Ascii String Lia Bool.
From Stdlib Require Import DecimalString Decimal DecimalPos.
From stdpp Require Import base option list gmap strings.

Local Open Scope string_scope.
Local Open Scope list_scope.
Local Open Scope Z_scope.

(** ** Outcomes of Go functions that can panic

    [OutOfFuel] is not a Go outcome: it marks a run of the model that was
    given too little fuel for the recursion of the source. *)

Inductive outcome (A : Type) : Type :=
| Ret (a : A)
| Panic (msg : string)
| OutOfFuel.

Arguments Ret {A} a.
Arguments Panic {A} msg.
Arguments OutOfFuel {A}.

#[global] Instance outcome_ret : MRet outcome := fun A a => Ret a.

#[global] Instance outcome_bind : MBind outcome := fun A B k o =>
  match o with
  | Ret a => k a
  | Panic msg => Panic msg
  | OutOfFuel => OutOfFuel
  end.

(** [approx o1 o2]: [o2] is [o1], or [o1] ran out of fuel. *)
Definition approx {A : Type} (o1 o2 : outcome A) : Prop :=
  o1 = OutOfFuel \/ o1 = o2.

(** An outcome that is a result or a panic: the run did not need more
    fuel. *)
Definition ends {A : Type} (o : outcome A) : Prop := o <> OutOfFuel.

(** The newline and the tab of Go's string literals. *)
Definition nl : string := String (ascii_of_nat 10) "".
Definition tab : string := String (ascii_of_nat 9) "".

(** ** Go errors

    An [error] value: the text of [errors.New] and [fmt.Errorf] errors and
    of errors handed back by the operating system or a library, and the
    structured [*strconv.NumError]. *)

Inductive NumErrorKind : Type := ErrSyntax | ErrRange.

Inductive error : Type :=
| errorString (msg : string)
| NumError (Func Num : string) (Err : NumErrorKind).

(** ** Package [strconv] and [fmt]: decimal parsing and printing *)

Module strconv.

(** [strconv.Itoa]: shortest decimal form, [-] for negative numbers. *)
Definition Itoa (i : Z) : string :=
  NilZero.string_of_int (Z.to_int i).

Definition maxUint64 : Z := 2 ^ 64 - 1.

Definition digit (c : ascii) : option Z :=
  let n := Z.of_nat (nat_of_ascii c) in
  if (48 <=? n) && (n <=? 57) then Some (n - 48) else None.

(** The digit loop of [ParseUint(s, 10, 64)] on the unsigned 64-bit
    accumulator [n]: a byte that is no decimal digit is a syntax error, a
    product or sum that leaves 64 bits a range error. *)
Fixpoint ParseUint_loop (s : string) (n : Z) : NumErrorKind + Z :=
  match s with
  | EmptyString => inr n
  | String c s' =>
      match digit c with
      | None => inl ErrSyntax
      | Some d =>
          let cutoff := maxUint64 / 10 + 1 in
          if n >=? cutoff then inl ErrRange
          else
            let n := (n * 10) mod 2 ^ 64 in
            let n1 := (n + d) mod 2 ^ 64 in
            if (n1 <? n) || (n1 >? maxUint64) then inl ErrRange
            else ParseUint_loop s' n1
      end
  end.

Definition ParseUint (s : string) : NumErrorKind + Z :=
  match s with
  | EmptyString => inl ErrSyntax
  | _ => ParseUint_loop s 0
  end.

(** [strconv.ParseInt(s, 10, 64)]: an optional sign, then [ParseUint]; the
    magnitude must fit the signed range. *)
Definition ParseInt (s0 : string) : error + Z :=
  match s0 with
  | EmptyString => inl (NumError "ParseInt" s0 ErrSyntax)
  | String c rest =>
      let '(neg, s) :=
        if Ascii.eqb c "+" then (false, rest)
        else if Ascii.eqb c "-" then (true, rest)
        else (false, s0) in
      match ParseUint s with
      | inl ErrSyntax => inl (NumError "ParseInt" s0 ErrSyntax)
      | un =>
          let un := match un with inr n => n | inl _ => maxUint64 end in
          let cutoff := 2 ^ 63 in
          if negb neg && (un >=? cutoff) then inl (NumError "ParseInt" s0 ErrRange)
          else if neg && (un >? cutoff) then inl (NumError "ParseInt" s0 ErrRange)
          else inr (if neg then - un else un)
      end
  end.

(** *** Decimal text, as [ParseInt] reads it *)







End strconv.

Module fmt.

Fixpoint zeros (n : nat) : string :=
  match n with
  | O => ""
  | S n' => String "0" (zeros n')
  end.

(** [fmt.Sprintf("%0<width>d", i)]: the sign, then zeros up to [width]
    characters in all, then the digits. *)
Definition Sprintf_0d (width : nat) (i : Z) : string :=
  let digits := NilZero.string_of_uint (N.to_uint (Z.abs_N i)) in
  let sign := if i <? 0 then "-" else "" in
  let used := (String.length sign + String.length digits)%nat in
  sign +:+ zeros (width - used) +:+ digits.

End fmt.

(** ** Package [path/filepath] (Unix separator) *)

Module filepath.

(** Splits a path at every [/]. *)
Fixpoint split_slash (acc : string) (s : string) : list string :=
  match s with
  | EmptyString => [String.rev acc]
  | String c s' =>
      if Ascii.eqb c "/" then String.rev acc :: split_slash "" s'
      else split_slash (String c acc) s'
  end.

(** One step of [Clean] on the stack of components kept so far (most
    recent first): empty and [.] components are dropped, [..] removes the
    component before it, unless there is none to remove. *)
Definition clean_step (rooted : bool) (stack : list string) (c : string)
  : list string :=
  if String.eqb c "" then stack
  else if String.eqb c "." then stack
  else if String.eqb c ".." then
    match stack with
    | [] => if rooted then [] else [".."]
    | top :: rest => if String.eqb top ".." then ".." :: stack else rest
    end
  else c :: stack.

Definition join_slash (l : list string) : string :=
  String.concat "/" l.

(** [filepath.Clean]. *)
Definition Clean (path : string) : string :=
  match path with
  | EmptyString => "."
  | String c _ =>
      let rooted := Ascii.eqb c "/" in
      let stack := fold_left (clean_step rooted) (split_slash "" path) [] in
      let body := join_slash (List.rev stack) in
      if rooted then "/" +:+ body
      else if String.eqb body "" then "." else body
  end.

(** [filepath.Join]: empty elements are ignored, the rest is joined by
    [/] and cleaned; no non-empty element gives the empty string. *)
Definition Join (elem : list string) : string :=
  match List.filter (fun e => negb (String.eqb e "")) elem with
  | [] => ""
  | l => Clean (join_slash l)
  end.

(** [filepath.Dir]: the path up to its last [/], cleaned. *)
Fixpoint upto_last_slash (s : string) : string :=
  match s with
  | EmptyString => ""
  | String c s' =>
      let r := upto_last_slash s' in
      if Ascii.eqb c "/" then String c r
      else if String.eqb r "" then "" else String c r
  end.

Definition Dir (path : string) : string :=
  Clean (upto_last_slash path).

End filepath.

(** ** Package [strings] *)

Module gostrings.

(** [strings.ReplaceAll(s, old, new)] for a non-empty [old]: the
    occurrences of [old] are replaced from left to right, without overlap.
    [skip] counts the bytes of a matched [old] still to be passed over. *)
Fixpoint replace_from (skip : nat) (s old new : string) : string :=
  match s with
  | EmptyString => ""
  | String c s' =>
      match skip with
      | Datatypes.S k => replace_from k s' old new
      | O =>
          if String.prefix old s
          then new +:+ replace_from (String.length old - 1) s' old new
          else String c (replace_from 0 s' old new)
      end
  end.

Definition ReplaceAll (s old new : string) : string :=
  replace_from 0 s old new.

Definition Join (elems : list string) (sep : string) : string :=
  String.concat sep elems.

(** [strings.Contains(s, substr)]. *)
Fixpoint Contains (s substr : string) : bool :=
  match s with
  | EmptyString => String.prefix substr s
  | String _ s' => String.prefix substr s || Contains s' substr
  end.

End gostrings.

(** ** Package [time]

    A [Time] is the instant it denotes, counted in nanoseconds from
    1970-01-01T00:00:00; a [Duration] is a number of nanoseconds.  The
    calendar fields are those of the proleptic Gregorian calendar in one
    zone of fixed offset (no daylight saving), which is also the zone of
    [Date].  Instants are not bounded: the model follows the documentation
    of the package and leaves out the limits of its 64-bit count of
    seconds, which lie some 292 billion years from 1970. *)

Module time.

Definition Time := Z.
Definition Duration := Z.

Definition Nanosecond : Duration := 1.
Definition Second : Duration := 1000000000.
Definition Hour : Duration := 3600 * Second.
Definition nsPerDay : Z := 24 * Hour.

Definition January : Z := 1.
Definition December : Z := 12.

(** Days from 1970-01-01 to the civil date [y]-[m]-[d], for [m] in 1..12
    and any [d] (days beyond the end of the month run into the next). *)
Definition days_from_civil (y m d : Z) : Z :=
  let y' := if m <=? 2 then y - 1 else y in
  let era := y' / 400 in
  let yoe := y' - era * 400 in
  let mp := if m >? 2 then m - 3 else m + 9 in
  let doy := (153 * mp + 2) / 5 + d - 1 in
  let doe := yoe * 365 + yoe / 4 - yoe / 100 + doy in
  era * 146097 + doe - 719468.

(** The civil date (year, month, day) of a day counted from 1970-01-01. *)
Definition civil_from_days (z : Z) : Z * Z * Z :=
  let z' := z + 719468 in
  let era := z' / 146097 in
  let doe := z' - era * 146097 in
  let yoe := (doe - doe / 1460 + doe / 36524 - doe / 146096) / 365 in
  let y := yoe + era * 400 in
  let doy := doe - (365 * yoe + yoe / 4 - yoe / 100) in
  let mp := (5 * doy + 2) / 153 in
  let d := doy - (153 * mp + 2) / 5 + 1 in
  let m := if mp <? 10 then mp + 3 else mp - 9 in
  (if m <=? 2 then y + 1 else y, m, d).

Definition Year (t : Time) : Z := fst (fst (civil_from_days (t / nsPerDay))).
Definition Month (t : Time) : Z := snd (fst (civil_from_days (t / nsPerDay))).
Definition Day (t : Time) : Z := snd (civil_from_days (t / nsPerDay)).
Definition Hour_of (t : Time) : Z := (t mod nsPerDay) / Hour.

(** [time.Date]: month, hours, minutes, seconds and nanoseconds outside
    their range are normalised by carrying into the next unit. *)
Definition Date (year month day hour min sec nsec : Z) : Time :=
  let m0 := month - 1 in
  let year' := year + m0 / 12 in
  let month' := m0 mod 12 + 1 in
  days_from_civil year' month' day * nsPerDay
  + hour * Hour + min * (60 * Second) + sec * Second + nsec.

Definition Add (t : Time) (d : Duration) : Time := t + d.

(** [t.AddDate(years, months, days)] is [Date] on the shifted fields. *)
Definition AddDate (t : Time) (years months days : Z) : Time :=
  let tod := t mod nsPerDay in
  Date (Year t + years) (Month t + months) (Day t + days) 0 0 0 tod.

Definition Unix (sec nsec : Z) : Time := sec * Second + nsec.

Definition Before (t u : Time) : bool := t <? u.

(** [t.Local()] is the same instant, shown in the local zone. *)
Definition Local (t : Time) : Time := t.

(** The day on which the month of index [N] begins, the months counted
    from January of the year 0. *)
Definition month_start (N : Z) : Z := days_from_civil (N / 12) (N mod 12 + 1) 1.

(** The index of the month of a day. *)
Definition month_index (z : Z) : Z :=
  12 * fst (fst (civil_from_days z)) + (snd (fst (civil_from_days z)) - 1).

End time.

(** ** Counted loops

    [for i := lo; i < hi; i++ { body }] where the body does not assign [i]
    or [hi]: the body runs for [lo], [lo+1], ..., [hi-1] on the state it
    threads, and not at all when [hi <= lo]. *)

Fixpoint for_count {S : Type} (n : nat) (i : Z) (body : Z -> S -> S) (s : S) : S :=
  match n with
  | O => s
  | Datatypes.S n' => for_count n' (i + 1) body (body i s)
  end.

Definition for_lt {S : Type} (lo hi : Z) (body : Z -> S -> S) (s : S) : S :=
  for_count (Z.to_nat (hi - lo)) lo body s.

(** ** The clip server: calendar-range decomposer *)

Module server.

Import time.

(** [listTargetDirectories(fromTs, toTs)], [toTs] exclusive.  Each of the
    four blocks threads the pair of the source's variables [result] and
    [fromTs]; the recursion of the source is bounded by [fuel]. *)
Fixpoint listTargetDirectories (fuel : nat) (fromTs toTs : Time)
  : outcome (list string) :=
  match fuel with
  | O => OutOfFuel
  | Datatypes.S fuel' =>
      let result : list string := [] in
      '(result, fromTs) ←
        (if negb (Year fromTs =? Year (Add toTs (- Nanosecond))) then
           let nextFromTs := Date (Year fromTs + 1) January 1 0 0 0 0 in
           sub ← listTargetDirectories fuel' fromTs nextFromTs;
           let result := result ++ sub in
           let fromTs := nextFromTs in
           mret (for_lt (Year fromTs) (Year toTs)
                   (fun year '(result, fromTs) =>
                      (result ++ [filepath.Join [strconv.Itoa year]],
                       AddDate fromTs 1 0 0))
                   (result, fromTs))
         else mret (result, fromTs));
      '(result, fromTs) ←
        (if negb (Month fromTs =? Month (Add toTs (- Nanosecond))) then
           if Month fromTs =? December then
             Panic "fromTs.Month() must not be Descember"
           else if Month fromTs >? Month toTs then
             Panic "fromTs.Month() must not be larger than toTs"
           else
             let nextFromTs := Date (Year fromTs) (Month fromTs + 1) 1 0 0 0 0 in
             sub ← listTargetDirectories fuel' fromTs nextFromTs;
             let result := result ++ sub in
             let fromTs := nextFromTs in
             mret (for_lt (Month fromTs) (Month toTs)
                     (fun month '(result, fromTs) =>
                        (result ++ [filepath.Join [fmt.Sprintf_0d 4 (Year fromTs);
                                                   fmt.Sprintf_0d 2 month]],
                         AddDate fromTs 0 1 0))
                     (result, fromTs))
         else mret (result, fromTs));
      '(result, fromTs) ←
        (if negb (Day fromTs =? Day (Add toTs (- Nanosecond))) then
           let nextFromTs := Date (Year fromTs) (Month fromTs) (Day fromTs + 1) 0 0 0 0 in
           sub ← listTargetDirectories fuel' fromTs nextFromTs;
           let result := result ++ sub in
           let fromTs := nextFromTs in
           mret (for_lt (Day fromTs) (Day toTs)
                   (fun day '(result, fromTs) =>
                      (result ++ [filepath.Join [fmt.Sprintf_0d 4 (Year fromTs);
                                                 fmt.Sprintf_0d 2 (Month fromTs);
                                                 fmt.Sprintf_0d 2 day]],
                       AddDate fromTs 0 0 1))
                   (result, fromTs))
         else mret (result, fromTs));
      let '(result, fromTs) :=
        if negb (Hour_of fromTs =? Hour_of (Add toTs (- Nanosecond))) then
          for_lt (Hour_of fromTs) (Hour_of toTs)
            (fun hour '(result, fromTs) =>
               (result ++ [filepath.Join [fmt.Sprintf_0d 4 (Year fromTs);
                                          fmt.Sprintf_0d 2 (Month fromTs);
                                          fmt.Sprintf_0d 2 (Day fromTs);
                                          fmt.Sprintf_0d 2 hour]],
                Add fromTs Hour))
            (result, fromTs)
        else (result, fromTs) in
      mret result
  end.

(** *** The filesystem as the walk reads it

    What [os.Lstat] and [os.ReadDir] report below a path: a regular file,
    a file of another type (symbolic link, device, socket), or a directory
    with its entries in the order [ReadDir] lists them, and the error of
    [ReadDir], if it fails (the entries are then the ones read before). *)

#[warnings="-register-all"]
Inductive node : Type :=
| Regular
| Irregular
| Directory (entries : list (string * node)) (readErr : option error).

Definition IsDir (d : node) : bool :=
  match d with Directory _ _ => true | _ => false end.

Definition IsRegular (d : node) : bool :=
  match d with Regular => true | _ => false end.

(** What the handler needs from outside: [os.Lstat] on the root of a walk,
    [filepath.Rel] and [json.Marshal] on a slice of strings. *)
Class ServerEnv : Type := {
  Lstat : string -> error + node;
  Rel : string -> string -> error + string;
  Marshal : list string -> error + string;
}.

Definition SkipDir : error := errorString "skip this directory".

Definition error_eqb (e1 e2 : error) : bool :=
  match e1, e2 with
  | errorString a, errorString b => String.eqb a b
  | _, _ => false
  end.

(** [fs.WalkDirFunc] on a state [S] that the callback updates. *)
Definition WalkDirFunc (S : Type) : Type :=
  string -> option node -> option error -> S -> S * option error.

(** The error a directory hands up: [SkipDir] on a directory ends it
    without error. *)
Definition after_dir (d : node) (err : option error) : option error :=
  match err with
  | Some e => if error_eqb e SkipDir && IsDir d then None else Some e
  | None => None
  end.

(** [filepath.walkDir]: the callback on the entry; for a directory, the
    callback again if [ReadDir] failed, then the entries in turn. *)
Fixpoint walkDir {S : Type} (fn : WalkDirFunc S) (path : string) (d : node) (s : S)
  {struct d} : S * option error :=
  let '(s, err) := fn path (Some d) None s in
  match err, d with
  | Some _, _ => (s, after_dir d err)
  | None, Directory entries readErr =>
      let '(s, err) :=
        match readErr with
        | Some e => fn path (Some d) (Some e) s
        | None => (s, None)
        end in
      match err with
      | Some _ => (s, after_dir d err)
      | None =>
          (fix each (dirs : list (string * node)) (s : S) : S * option error :=
             match dirs with
             | [] => (s, None)
             | (name, d1) :: rest =>
                 let '(s, err) := walkDir fn (filepath.Join [path; name]) d1 s in
                 match err with
                 | Some e => if error_eqb e SkipDir then (s, None) else (s, Some e)
                 | None => each rest s
                 end
             end) entries s
      end
  | None, _ => (s, None)
  end.

(** [filepath.WalkDir]: a root that cannot be stat'ed is reported to the
    callback with no entry. *)
Definition WalkDir {env : ServerEnv} {S : Type} (root : string) (fn : WalkDirFunc S) (s : S)
  : S * option error :=
  match Lstat root with
  | inl err => fn root None (Some err) s
  | inr info =>
      let '(s, err) := walkDir fn root info s in
      (s, match err with
          | Some e => if error_eqb e SkipDir then None else Some e
          | None => None
          end)
  end.

(** *** The [/list] endpoint *)

(** [r.URL.Query().Get(key)]: the first value of the key, or the empty
    string. *)
Definition Get (query : gmap string (list string)) (key : string) : string :=
  match query !! key with
  | Some (v :: _) => v
  | _ => ""
  end.

Definition parseUnixTimeOrDefault (unixTsStr : string) (defaultTime : Time)
  : error + Time :=
  if (String.length unixTsStr =? 0)%nat then inr (Local defaultTime)
  else
    match strconv.ParseInt unixTsStr with
    | inl err => inl err
    | inr unixTs => inr (Local (Unix unixTs 0))
    end.

Inductive body : Type :=
| ErrorText (err : error)
| Text (s : string).

Record Response : Type := {
  StatusCode : Z;
  ContentType : string;
  Body : body;
}.

Definition StatusOK : Z := 200.
Definition StatusBadRequest : Z := 400.
Definition StatusInternalServerError : Z := 500.

(** [http.Error(w, msg, code)]: the reply has the code and the message as
    its text (a newline follows it on the wire). *)
Definition http_Error (msg : body) (code : Z) : Response :=
  {| StatusCode := code; ContentType := "text/plain; charset=utf-8"; Body := msg |}.

(** The head of the handler: the range of the request, or the reply that
    refuses it.  [now] is the reading of [time.Now()]. *)
Definition listRange (query : gmap string (list string)) (now : Time)
  : Response + Time * Time :=
  match parseUnixTimeOrDefault (Get query "from") (Add now (-24 * Hour)) with
  | inl err => inl (http_Error (ErrorText err) StatusBadRequest)
  | inr fromTs =>
      match parseUnixTimeOrDefault (Get query "to") (Add fromTs (24 * Hour)) with
      | inl err => inl (http_Error (ErrorText err) StatusBadRequest)
      | inr toTs =>
          if negb (Before fromTs toTs)
          then inl (http_Error (Text "from should be less than to") StatusBadRequest)
          else inr (fromTs, toTs)
      end
  end.

(** The callback of the walk: a regular file adds its path relative to
    the root directory; nothing else does, and the walk is never stopped. *)
Definition collect {env : ServerEnv} (directory : string) : WalkDirFunc (list string) :=
  fun path d err result =>
    match d with
    | None => (result, None)
    | Some d =>
        if IsRegular d then
          match Rel directory path with
          | inr rel => (result ++ [rel], None)
          | inl _ => (result, None)
          end
        else (result, None)
    end.

(** The paths the walks of the candidate directories collect; the error
    each walk returns is dropped. *)
Definition collected {env : ServerEnv} (directory : string) (dirs : list string) : list string :=
  fold_left
    (fun result d => fst (WalkDir (filepath.Join [directory; d]) (collect directory) result))
    dirs [].

(** The body of the handler once the range stands: the walks and the
    reply. *)
Definition listFiles {env : ServerEnv} (directory : string) (dirs : list string) : Response :=
  let result := collected directory dirs in
  match Marshal result with
  | inl err => http_Error (ErrorText err) StatusInternalServerError
  | inr resultJson =>
      {| StatusCode := StatusOK; ContentType := "application/json"; Body := Text resultJson |}
  end.

(** The handler of [/list].  A panic of the decomposer leaves the handler
    without a reply. *)
Definition listHandler {env : ServerEnv} (fuel : nat) (directory : string)
  (query : gmap string (list string)) (now : Time) : outcome Response :=
  match listRange query now with
  | inl resp => Ret resp
  | inr (fromTs, toTs) =>
      dirs ← listTargetDirectories fuel fromTs toTs;
      mret (listFiles directory dirs)
  end.

(** The errors the walks of a request meet: every error handed to the
    callback, in order. *)
Definition walkErrors {env : ServerEnv} (directory : string) (dirs : list string) : list error :=
  fold_left
    (fun seen d =>
       fst (WalkDir (filepath.Join [directory; d])
              (fun _ _ err seen =>
                 (match err with Some e => seen ++ [e] | None => seen end, None))
              seen))
    dirs [].

(** The hour bucket of an instant: the directory in which a clip saved at
    that instant lies under the layout [2006/01/02/15]. *)
Definition hourBucket (t : Time) : string :=
  filepath.Join [fmt.Sprintf_0d 4 (Year t); fmt.Sprintf_0d 2 (Month t);
                 fmt.Sprintf_0d 2 (Day t); fmt.Sprintf_0d 2 (Hour_of t)].

(** [under p b]: the bucket [b] is the directory [p] or lies below it. *)
Definition under (p b : string) : bool :=
  String.eqb p b || String.prefix (p +:+ "/") b.

Definition covers (dirs : list string) (t : Time) : bool :=
  existsb (fun p => under p (hourBucket t)) dirs.

(** *** The decomposer, block by block

    The four blocks of [listTargetDirectories], each on the pair of
    [result] and [fromTs] that it threads; [rec] is the recursive call. *)

Definition yearBlock (rec : Time -> Time -> outcome (list string)) (toTs : Time)
  (st : list string * Time) : outcome (list string * Time) :=
  let '(result, fromTs) := st in
  if negb (Year fromTs =? Year (Add toTs (- Nanosecond))) then
    let nextFromTs := Date (Year fromTs + 1) January 1 0 0 0 0 in
    sub ← rec fromTs nextFromTs;
    let result := result ++ sub in
    let fromTs := nextFromTs in
    mret (for_lt (Year fromTs) (Year toTs)
            (fun year '(result, fromTs) =>
               (result ++ [filepath.Join [strconv.Itoa year]],
                AddDate fromTs 1 0 0))
            (result, fromTs))
  else mret (result, fromTs).

Definition monthBlock (rec : Time -> Time -> outcome (list string)) (toTs : Time)
  (st : list string * Time) : outcome (list string * Time) :=
  let '(result, fromTs) := st in
  if negb (Month fromTs =? Month (Add toTs (- Nanosecond))) then
    if Month fromTs =? December then
      Panic "fromTs.Month() must not be Descember"
    else if Month fromTs >? Month toTs then
      Panic "fromTs.Month() must not be larger than toTs"
    else
      let nextFromTs := Date (Year fromTs) (Month fromTs + 1) 1 0 0 0 0 in
      sub ← rec fromTs nextFromTs;
      let result := result ++ sub in
      let fromTs := nextFromTs in
      mret (for_lt (Month fromTs) (Month toTs)
              (fun month '(result, fromTs) =>
                 (result ++ [filepath.Join [fmt.Sprintf_0d 4 (Year fromTs);
                                            fmt.Sprintf_0d 2 month]],
                  AddDate fromTs 0 1 0))
              (result, fromTs))
  else mret (result, fromTs).

Definition dayBlock (rec : Time -> Time -> outcome (list string)) (toTs : Time)
  (st : list string * Time) : outcome (list string * Time) :=
  let '(result, fromTs) := st in
  if negb (Day fromTs =? Day (Add toTs (- Nanosecond))) then
    let nextFromTs := Date (Year fromTs) (Month fromTs) (Day fromTs + 1) 0 0 0 0 in
    sub ← rec fromTs nextFromTs;
    let result := result ++ sub in
    let fromTs := nextFromTs in
    mret (for_lt (Day fromTs) (Day toTs)
            (fun day '(result, fromTs) =>
               (result ++ [filepath.Join [fmt.Sprintf_0d 4 (Year fromTs);
                                          fmt.Sprintf_0d 2 (Month fromTs);
                                          fmt.Sprintf_0d 2 day]],
                AddDate fromTs 0 0 1))
            (result, fromTs))
  else mret (result, fromTs).

Definition hourBlock (toTs : Time) (st : list string * Time) : list string * Time :=
  let '(result, fromTs) := st in
  if negb (Hour_of fromTs =? Hour_of (Add toTs (- Nanosecond))) then
    for_lt (Hour_of fromTs) (Hour_of toTs)
      (fun hour '(result, fromTs) =>
         (result ++ [filepath.Join [fmt.Sprintf_0d 4 (Year fromTs);
                                    fmt.Sprintf_0d 2 (Month fromTs);
                                    fmt.Sprintf_0d 2 (Day fromTs);
                                    fmt.Sprintf_0d 2 hour]],
          Add fromTs Hour))
      (result, fromTs)
  else (result, fromTs).

(** *** What the walks find *)

(** The regular files at and below an entry, each as [filepath.Rel] gives
    it from the root directory, in the order of the walk; a file whose
    path [Rel] refuses is left out. *)
Fixpoint regularFiles {env : ServerEnv} (directory path : string) (d : node)
  {struct d} : list string :=
  match d with
  | Regular =>
      match Rel directory path with
      | inr rel => [rel]
      | inl _ => []
      end
  | Irregular => []
  | Directory entries _ =>
      flat_map (fun e => regularFiles directory (filepath.Join [path; fst e]) (snd e)) entries
  end.

(** The regular files below a candidate directory: none when the
    directory cannot be stat'ed. *)
Definition filesUnder {env : ServerEnv} (directory d : string) : list string :=
  match Lstat (filepath.Join [directory; d]) with
  | inl _ => []
  | inr info => regularFiles directory (filepath.Join [directory; d]) info
  end.

(** *** What the parameters stand for *)




(** An outcome other than the panic of the check for December. *)
Definition notDecember {A : Type} (o : outcome A) : Prop :=
  o <> Panic "fromTs.Month() must not be Descember".

(** The day bucket of an instant: the directory of its day under the
    layout [2006/01/02/15]. *)
Definition dayBucket (t : Time) : string :=
  filepath.Join [fmt.Sprintf_0d 4 (Year t); fmt.Sprintf_0d 2 (Month t);
                 fmt.Sprintf_0d 2 (Day t)].

End server.

(** ** The event consumer *)

Module consumer.

Import time.

(** *** Events *)

Definition RawMessage : Type := string.

Record RelationUpdate : Type := {
  Type_ : string;
  Subject : string;
  Object : string;
}.

Definition ResourceUpdateEventTypeDoorbellChime : string :=
  "sdm.devices.events.DoorbellChime.Chime".
Definition ResourceUpdateEventTypeCameraMotion : string :=
  "sdm.devices.events.CameraMotion.Motion".
Definition ResourceUpdateEventTypeCameraPerson : string :=
  "sdm.devices.events.CameraPerson.Person".
Definition ResourceUpdateEventTypeCameraClipPreview : string :=
  "sdm.devices.events.CameraClipPreview.ClipPreview".

Record ResourceUpdate : Type := {
  Name : string;
  Traits : gmap string RawMessage;
  Events : gmap string RawMessage;
}.

Record DeviceEvent : Type := {
  EventId : string;
  Timestamp : string;
  relationUpdate : option RelationUpdate;
  resourceUpdate : option ResourceUpdate;
  ResourceGroup : list string;
  EventThreadId : option string;
  EventThreadState : option string;
  UserId : string;
}.

(** The method [format] of [DeviceEvent]. *)
Definition DeviceEvent_format (e : DeviceEvent) : string :=
  "DeviceEvent" +:+ nl +:+ tab +:+ "* UserId: " +:+ UserId e
  +:+ nl +:+ tab +:+ "* EventId: " +:+ EventId e
  +:+ nl +:+ tab +:+ "* Timestamp: " +:+ Timestamp e.

(** The payloads of the three primary events have the same two fields. *)
Record ResourceUpdateEventDoorbellChime : Type := {
  chime_EventSessionId : string;
  chime_EventId : string;
}.

Record ResourceUpdateEventCameraMotion : Type := {
  motion_EventSessionId : string;
  motion_EventId : string;
}.

Record ResourceUpdateEventCameraPerson : Type := {
  person_EventSessionId : string;
  person_EventId : string;
}.

Record ResourceUpdateEventCameraClipPreview : Type := {
  EventSessionId : string;
  PreviewUrl : string;
}.

Definition DoorbellChime_format (p : ResourceUpdateEventDoorbellChime) : string :=
  "DoorbellChimeEvent(EventSessionId: " +:+ chime_EventSessionId p
  +:+ ", EventId: " +:+ chime_EventId p +:+ ")".

Definition CameraMotion_format (p : ResourceUpdateEventCameraMotion) : string :=
  "CameraMotionEvent(EventSessionId: " +:+ motion_EventSessionId p
  +:+ ", EventId: " +:+ motion_EventId p +:+ ")".

Definition CameraPerson_format (p : ResourceUpdateEventCameraPerson) : string :=
  "CameraPersonEvent(EventSessionId: " +:+ person_EventSessionId p
  +:+ ", EventId: " +:+ person_EventId p +:+ ")".

(** The method [format] of [ResourceUpdateEventCameraClipPreview], [None]
    being the nil pointer. *)
Definition CameraClipPreview_format (p : option ResourceUpdateEventCameraClipPreview)
  : string :=
  match p with
  | None => "CameraClipPreview(nil)"
  | Some p =>
      "CameraClipPreview(EventSessionId: " +:+ EventSessionId p
      +:+ ", PreviewUrl: " +:+ PreviewUrl p +:+ ")"
  end.

(** *** The world of the consumer *)

(** An entry of the filesystem: a directory or a file with its bytes. *)
Inductive fnode : Type :=
| FDir
| FFile (content : string).

(** An argument of a [Printf] call, as it is passed. *)
Inductive value : Type :=
| VStr (s : string)
| VInt (i : Z)
| VErr (err : option error)
| VBytes (b : string)
| VEvent (e : DeviceEvent).

(** What a run does to the outside, in the order in which it does it. *)
Inductive effect : Type :=
| ELog (format : string) (args : list value)
| EPrint (format : string) (args : list value)
| EGet (url : string)
| EMkdirAll (name : string)
| ECreate (name : string)
| EAck (id : string).

Record World : Type := {
  fs : gmap string fnode;
  clock : Time;
  effects : list effect;
}.

Definition set_fs (f : gmap string fnode) (w : World) : World :=
  {| fs := f; clock := clock w; effects := effects w |}.


Definition M (A : Type) : Type := World -> outcome (A * World).

#[global] Instance M_ret : MRet M := fun A a w => Ret (a, w).

#[global] Instance M_bind : MBind M := fun A B k m w =>
  match m w with
  | Ret (a, w') => k a w'
  | Panic msg => Panic msg
  | OutOfFuel => OutOfFuel
  end.

Definition emit (e : effect) : M unit := fun w =>
  Ret (tt, {| fs := fs w; clock := clock w; effects := effects w ++ [e] |}).

Definition get_clock : M Time := fun w => Ret (clock w, w).

(** [defer d] at the head of a function body: [d] runs when the body
    returns. *)
Definition defer {A : Type} (d : M unit) (body : M A) : M A :=
  a ← body; d;; mret a.

(** *** Package [os] on the filesystem of the world

    The working directory and the root are always there; any other path is
    there when it has an entry. *)

Definition isDirectory (f : gmap string fnode) (name : string) : bool :=
  String.eqb name "." || String.eqb name "/"
  || match f !! name with Some FDir => true | _ => false end.

Definition present (f : gmap string fnode) (name : string) : bool :=
  String.eqb name "." || String.eqb name "/"
  || match f !! name with Some _ => true | None => false end.

(** [_, err := os.Stat(name); os.IsNotExist(err)]. *)
Definition Stat_IsNotExist (name : string) : M bool := fun w =>
  Ret (negb (present (fs w) name), w).

(** [os.MkdirAll] on the entries: a directory is left as it is, a file in
    the way is an error, and a missing path is made after its parent.  The
    parents of a path get shorter, so [n] steps are enough for a path of
    [n] bytes. *)
Fixpoint mkdirAll (n : nat) (path : string) (f : gmap string fnode)
  : error + gmap string fnode :=
  if isDirectory f path then inr f
  else
    match f !! path with
    | Some (FFile _) => inl (errorString ("mkdir " +:+ path +:+ ": not a directory"))
    | _ =>
        match n with
        | O => inl (errorString ("mkdir " +:+ path +:+ ": no such file or directory"))
        | Datatypes.S n' =>
            match mkdirAll n' (filepath.Dir path) f with
            | inl err => inl err
            | inr f' => inr (<[path := FDir]> f')
            end
        end
    end.

Definition MkdirAll (path : string) : M (option error) := fun w =>
  match mkdirAll (String.length path) path (fs w) with
  | inl err => (emit (EMkdirAll path);; mret (Some err)) w
  | inr f' => (emit (EMkdirAll path);; mret None) (set_fs f' w)
  end.

(** [os.Create]: the parent must be a directory and the name must not be
    one; the file is created empty, or emptied. *)
Definition create (name : string) (f : gmap string fnode) : error + gmap string fnode :=
  if negb (isDirectory f (filepath.Dir name)) then
    if present f (filepath.Dir name)
    then inl (errorString ("open " +:+ name +:+ ": not a directory"))
    else inl (errorString ("open " +:+ name +:+ ": no such file or directory"))
  else if isDirectory f name then
    inl (errorString ("open " +:+ name +:+ ": is a directory"))
  else inr (<[name := FFile ""]> f).

Definition Create (name : string) : M (option error) := fun w =>
  match create name (fs w) with
  | inl err => (emit (ECreate name);; mret (Some err)) w
  | inr f' => (emit (ECreate name);; mret None) (set_fs f' w)
  end.

(** The reply to a GET: its content type, the bytes of its body that can
    be read, and the error that ends the reading, if any. *)
Record HttpResponse : Type := {
  Header_ContentType : string;
  Body_data : string;
  Body_err : option error;
}.

(** [io.Copy(file, resp.Body)] on the file just created. *)
Definition Copy (name : string) (resp : HttpResponse) : M (Z * option error) := fun w =>
  Ret ((Z.of_nat (String.length (Body_data resp)), Body_err resp),
       set_fs (<[name := FFile (Body_data resp)]> (fs w)) w).

(** *** What the consumer needs from outside

    [encoding/json] on the message and on the payloads, the order in which
    [range] visits the keys of a map on this run (some order of all its
    keys), the HTTP client, [mime.ExtensionsByType] and
    [Time.Format]. *)
Class ConsumerEnv : Type := {
  Unmarshal_DeviceEvent : string -> error + DeviceEvent;
  Unmarshal_DoorbellChime : RawMessage -> error + ResourceUpdateEventDoorbellChime;
  Unmarshal_CameraMotion : RawMessage -> error + ResourceUpdateEventCameraMotion;
  Unmarshal_CameraPerson : RawMessage -> error + ResourceUpdateEventCameraPerson;
  Unmarshal_CameraClipPreview : RawMessage -> error + ResourceUpdateEventCameraClipPreview;
  rangeKeys : gmap string RawMessage -> list string;
  rangeKeys_perm : forall m, rangeKeys m ≡ₚ (map_to_list m).*1;
  client_Get : string -> error + HttpResponse;
  ExtensionsByType : string -> error + list string;
  Format : Time -> string -> string;
}.

Record NestDoorbellEventProcessor : Type := {
  doorbellDeviceName : string;
  outputDir : string;
  outputFileNameFormat : string;
}.

(** *** The clip downloader *)

(** [i + 1] on Go's 64-bit [int]. *)
Definition int_add (a b : Z) : Z :=
  (a + b + 2 ^ 63) mod 2 ^ 64 - 2 ^ 63.

(** The name the loop tries for the counter [i]. *)
Definition candidate (p : NestDoorbellEventProcessor)
  (fileNameFormat sessionId ext : string) (i : Z) : string :=
  filepath.Join
    [outputDir p;
     gostrings.ReplaceAll fileNameFormat "{eventSessionId}"
       (sessionId +:+ "_" +:+ strconv.Itoa i) +:+ ext].

(** The loop that looks for an unused name, from the counter [i]. *)
Fixpoint probe (fuel : nat) (p : NestDoorbellEventProcessor)
  (fileNameFormat sessionId ext : string) (i : Z) : M string :=
  match fuel with
  | O => fun _ => OutOfFuel
  | Datatypes.S fuel' =>
      let fileName := candidate p fileNameFormat sessionId ext i in
      notExist ← Stat_IsNotExist fileName;
      if notExist : bool then mret fileName
      else
        let i := int_add i 1 in
        emit (EPrint ("%v - %v" +:+ nl) [VInt i; VStr fileName]);;
        probe fuel' p fileNameFormat sessionId ext i
  end.

Definition downloadAndSaveCameraClipPreview {env : ConsumerEnv}
  (p : NestDoorbellEventProcessor) (fuel : nat)
  (clipPreview : ResourceUpdateEventCameraClipPreview) : M (option error) :=
  emit (EGet (PreviewUrl clipPreview));;
  match client_Get (PreviewUrl clipPreview) with
  | inl err => mret (Some err)
  | inr resp =>
      extensions ←
        match ExtensionsByType (Header_ContentType resp) with
        | inr (e :: es) => mret (e :: es)
        | r =>
            emit (EPrint "Failed to get extension type from content type(%v): err(%v)"
                    [VStr (Header_ContentType resp);
                     VErr (match r with inl err => Some err | inr _ => None end)]);;
            mret [".video.unknown"]
        end;
      let ext := hd "" extensions in
      now ← get_clock;
      let fileNameFormat := Format now (outputFileNameFormat p) in
      fileName ← probe fuel p fileNameFormat (EventSessionId clipPreview) ext 0;
      let outputDir := filepath.Dir fileName in
      notExist ← Stat_IsNotExist outputDir;
      err ← (if notExist : bool then MkdirAll outputDir else mret None);
      match err with
      | Some err => mret (Some err)
      | None =>
          err ← Create fileName;
          match err with
          | Some err => mret (Some err)
          | None =>
              '(numWritten, err) ← Copy fileName resp;
              match err with
              | Some err => mret (Some err)
              | None =>
                  emit (EPrint ("Wrote clipPreview for eventSession %v as %v (bytes: %v)" +:+ nl)
                          [VStr (EventSessionId clipPreview); VStr ext; VInt numWritten]);;
                  mret None
              end
          end
      end
  end.

(** *** The event dispatcher *)

Definition processChimeEvent {env : ConsumerEnv} (p : NestDoorbellEventProcessor) (fuel : nat)
  (chime : ResourceUpdateEventDoorbellChime)
  (clipPreview : option ResourceUpdateEventCameraClipPreview) : M (option error) :=
  emit (ELog "processChimeEvent is not implemented yet: %v, %v"
          [VStr (DoorbellChime_format chime); VStr (CameraClipPreview_format clipPreview)]);;
  match clipPreview with
  | Some clipPreview =>
      err ← downloadAndSaveCameraClipPreview p fuel clipPreview;
      match err with
      | Some err => mret (Some err)
      | None => mret None
      end
  | None => mret None
  end.

Definition processMotionEvent {env : ConsumerEnv} (p : NestDoorbellEventProcessor) (fuel : nat)
  (motion : ResourceUpdateEventCameraMotion)
  (clipPreview : option ResourceUpdateEventCameraClipPreview) : M (option error) :=
  emit (ELog "processMotionEvent is not implemented yet: %v, %v"
          [VStr (CameraMotion_format motion); VStr (CameraClipPreview_format clipPreview)]);;
  match clipPreview with
  | Some clipPreview =>
      err ← downloadAndSaveCameraClipPreview p fuel clipPreview;
      match err with
      | Some err => mret (Some err)
      | None => mret None
      end
  | None => mret None
  end.

Definition processPersonEvent {env : ConsumerEnv} (p : NestDoorbellEventProcessor) (fuel : nat)
  (person : ResourceUpdateEventCameraPerson)
  (clipPreview : option ResourceUpdateEventCameraClipPreview) : M (option error) :=
  emit (ELog "processPersonEvent is not implemented yet: %v, %v"
          [VStr (CameraPerson_format person); VStr (CameraClipPreview_format clipPreview)]);;
  match clipPreview with
  | Some clipPreview =>
      err ← downloadAndSaveCameraClipPreview p fuel clipPreview;
      match err with
      | Some err => mret (Some err)
      | None => mret None
      end
  | None => mret None
  end.

Definition processRelationUpdateEvent (event : DeviceEvent) : M (option error) :=
  emit (ELog "processRelationUpdateEvent is not implemented yet: %v" [VEvent event]);;
  mret None.

(** The clip preview decoded next to a primary event: absent when the key
    is absent, and also when its payload does not decode. *)
Definition clipPreviewOf {env : ConsumerEnv} (resourceUpdate : ResourceUpdate)
  : option ResourceUpdateEventCameraClipPreview :=
  match Events resourceUpdate !! ResourceUpdateEventTypeCameraClipPreview with
  | Some raw =>
      match Unmarshal_CameraClipPreview raw with
      | inr clipPreviewEvent => Some clipPreviewEvent
      | inl _ => None
      end
  | None => None
  end.

(** The text of the error for a resource update without a primary
    event. *)
Definition unsupportedResourceUpdate (userId : string) (events traits : list string)
  : string :=
  "unsupported resource update event:" +:+ nl +:+ tab +:+ "* user id(" +:+ userId +:+ ")"
  +:+ nl +:+ tab +:+ "* events(" +:+ gostrings.Join events "," +:+ ")"
  +:+ nl +:+ tab +:+ "* traits(" +:+ gostrings.Join traits "," +:+ ")".

Definition processResourceUpdateEvent {env : ConsumerEnv} (p : NestDoorbellEventProcessor)
  (fuel : nat) (event : DeviceEvent) : M (option error) :=
  match resourceUpdate event with
  | None => fun _ => Panic "invalid memory address or nil pointer dereference"
  | Some resourceUpdate =>
      match Events resourceUpdate !! ResourceUpdateEventTypeDoorbellChime with
      | Some raw =>
          match Unmarshal_DoorbellChime raw with
          | inl err => mret (Some err)
          | inr chimeEvent =>
              processChimeEvent p fuel chimeEvent (clipPreviewOf resourceUpdate)
          end
      | None =>
      match Events resourceUpdate !! ResourceUpdateEventTypeCameraMotion with
      | Some raw =>
          match Unmarshal_CameraMotion raw with
          | inl err => mret (Some err)
          | inr motionEvent =>
              processMotionEvent p fuel motionEvent (clipPreviewOf resourceUpdate)
          end
      | None =>
      match Events resourceUpdate !! ResourceUpdateEventTypeCameraPerson with
      | Some raw =>
          match Unmarshal_CameraPerson raw with
          | inl err => mret (Some err)
          | inr personEvent =>
              processPersonEvent p fuel personEvent (clipPreviewOf resourceUpdate)
          end
      | None =>
          let events := rangeKeys (Events resourceUpdate) in
          let traits := rangeKeys (Traits resourceUpdate) in
          mret (Some (errorString (unsupportedResourceUpdate (UserId event) events traits)))
      end end end
  end.

Definition Process {env : ConsumerEnv} (p : NestDoorbellEventProcessor) (fuel : nat)
  (event : DeviceEvent) : M (option error) :=
  match resourceUpdate event, relationUpdate event with
  | Some _, _ => processResourceUpdateEvent p fuel event
  | None, Some _ => processRelationUpdateEvent event
  | None, None => mret (Some (errorString ("Unsupported event: " +:+ DeviceEvent_format event)))
  end.


(** *** The subscription callback of [main] *)

Record Message : Type := {
  ID : string;
  Data : string;
}.

Definition receive {env : ConsumerEnv} (processor : NestDoorbellEventProcessor) (fuel : nat)
  (m : Message) : M unit :=
  defer (emit (EAck (ID m)))
    (match Unmarshal_DeviceEvent (Data m) with
     | inl err =>
         emit (ELog ("Failed to unmarshal message: %v" +:+ nl +:+ tab +:+ "%v")
                 [VErr (Some err); VBytes (Data m)])
     | inr event =>
         err ← Process processor fuel event;
         match err with
         | Some err =>
             emit (ELog ("Failed to process message: %v" +:+ nl +:+ tab +:+ "%v")
                     [VErr (Some err); VBytes (Data m)])
         | None => mret tt
         end
     end).

(** *** What a run shows

    Predicates on the effects of a run, for stating what the dispatcher,
    the downloader and the callback do. *)

(** Input and output of the downloader. *)
Definition isIO (e : effect) : Prop :=
  match e with
  | EPrint _ _ | EGet _ | EMkdirAll _ | ECreate _ => True
  | ELog _ _ | EAck _ => False
  end.


(** The formats of the lines written to the log: each handler writes one
    line, with a format of its own. *)
Definition handlerLines (es : list effect) : list string :=
  flat_map (fun e => match e with ELog format _ => [format] | _ => [] end) es.

(** The files created, in order. *)
Definition created (es : list effect) : list string :=
  flat_map (fun e => match e with ECreate name => [name] | _ => [] end) es.

(** A computation that never panics and, when it returns, has added to
    the effects only effects that satisfy [P]. *)
Definition emits {A : Type} (P : effect -> Prop) (m : M A) : Prop :=
  forall w,
    match m w with
    | Ret (_, w') => exists new, effects w' = effects w ++ new /\ Forall P new
    | Panic _ => False
    | OutOfFuel => True
    end.

(** A computation that never panics and, when it returns, has written
    one line to the log and then only done input and output. *)
Definition logs_then_io {A : Type} (format : string) (args : list value) (m : M A) : Prop :=
  forall w,
    match m w with
    | Ret (_, w') =>
        exists io, effects w' = effects w ++ ELog format args :: io /\ Forall isIO io
    | Panic _ => False
    | OutOfFuel => True
    end.

(** The counter of the loop of the downloader after [k] rounds from
    [i]. *)
Definition counter (k : nat) (i : Z) : Z :=
  Nat.iter k (fun x => int_add x 1) i.

(** The extension the downloader takes for a reply. *)
Definition extensionOf {env : ConsumerEnv} (resp : HttpResponse) : string :=
  match ExtensionsByType (Header_ContentType resp) with
  | inr (e :: _) => e
  | _ => ".video.unknown"
  end.

(** The name the downloader tries for the counter [i], for a clip whose
    GET is answered by [resp], at the time [t]. *)
Definition clipName {env : ConsumerEnv} (p : NestDoorbellEventProcessor)
  (clip : ResourceUpdateEventCameraClipPreview) (resp : HttpResponse)
  (t : Time) (i : Z) : string :=
  candidate p (Format t (outputFileNameFormat p)) (EventSessionId clip)
    (extensionOf resp) i.


(** A computation that, when it returns, has kept every entry of the
    filesystem as it was. *)
Definition keeps {A : Type} (m : M A) : Prop :=
  forall (w : World) (a : A) (w' : World),
    m w = Ret (a, w') ->
    forall (q : string) (v : fnode), fs w !! q = Some v -> fs w' !! q = Some v.

End consumer.

(** ** Stand-ins for the outside, for running the programs on examples *)

Module testbed.

Import time.

(** A filesystem for the server: one candidate directory whose listing
    breaks off with an error after one file; every other path is
    missing. *)
Definition brokenDir : server.node :=
  server.Directory [("a.mp4", server.Regular)]
    (Some (errorString "readdirent: input/output error")).

Definition strip_prefix (pre s : string) : option string :=
  if String.prefix pre s
  then Some (String.substring (String.length pre) (String.length s - String.length pre) s)
  else None.

Definition quoted (s : string) : string :=
  String (ascii_of_nat 34) s +:+ String (ascii_of_nat 34) "".

#[local] Instance brokenDisk : server.ServerEnv := {|
  server.Lstat root :=
    if String.eqb root "clips/2023/06/01/00" then inr brokenDir
    else inl (errorString ("lstat " +:+ root +:+ ": no such file or directory"));
  server.Rel base targ :=
    match strip_prefix (base +:+ "/") targ with
    | Some rel => inr rel
    | None => inl (errorString ("Rel: can't make " +:+ targ +:+ " relative to " +:+ base))
    end;
  server.Marshal l := inr ("[" +:+ String.concat "," (map quoted l) +:+ "]");
|}.

(** [Time.Format] for layouts made of the year, month, day and hour
    fields [2006], [01], [02], [15] and text without digits. *)
Fixpoint format_from (skip : nat) (t : Time) (layout : string) : string :=
  match layout with
  | EmptyString => ""
  | String c rest =>
      match skip with
      | Datatypes.S k => format_from k t rest
      | O =>
          if String.prefix "2006" layout then fmt.Sprintf_0d 4 (Year t) +:+ format_from 3 t rest
          else if String.prefix "01" layout then fmt.Sprintf_0d 2 (Month t) +:+ format_from 1 t rest
          else if String.prefix "02" layout then fmt.Sprintf_0d 2 (Day t) +:+ format_from 1 t rest
          else if String.prefix "15" layout then fmt.Sprintf_0d 2 (Hour_of t) +:+ format_from 1 t rest
          else String c (format_from 0 t rest)
      end
  end.

(** A decoder for payloads written as [sessionId eventId], a space in
    between; a payload without a space does not decode. *)
Definition two_fields (raw : string) : option (string * string) :=
  match String.index 0 " " raw with
  | Some i =>
      Some (String.substring 0 i raw,
            String.substring (i + 1) (String.length raw - i - 1) raw)
  | None => None
  end.

Definition decode {A : Type} (mk : string -> string -> A) (raw : string) : error + A :=
  match two_fields raw with
  | Some (a, b) => inr (mk a b)
  | None => inl (errorString "json: cannot unmarshal string into Go value")
  end.

(** A message whose data is [chime <url>] decodes to a doorbell chime of
    session [s1] with a clip preview at that address; nothing else
    decodes. *)
Definition decodeEvent (data : string) : error + consumer.DeviceEvent :=
  match strip_prefix "chime " data with
  | Some url =>
      inr {| consumer.EventId := "e1"; consumer.Timestamp := "2023-06-01T10:00:00Z";
             consumer.relationUpdate := None;
             consumer.resourceUpdate :=
               Some {| consumer.Name := "enterprises/p/devices/d";
                       consumer.Traits := ∅;
                       consumer.Events :=
                         {[ consumer.ResourceUpdateEventTypeDoorbellChime := "s1 e1";
                            consumer.ResourceUpdateEventTypeCameraClipPreview := "s1 " +:+ url ]} |};
             consumer.ResourceGroup := []; consumer.EventThreadId := None;
             consumer.EventThreadState := None; consumer.UserId := "u1" |}
  | None => inl (errorString "invalid character looking for beginning of value")
  end.

#[local] Instance lab : consumer.ConsumerEnv := {|
  consumer.Unmarshal_DeviceEvent := decodeEvent;
  consumer.Unmarshal_DoorbellChime := decode consumer.Build_ResourceUpdateEventDoorbellChime;
  consumer.Unmarshal_CameraMotion := decode consumer.Build_ResourceUpdateEventCameraMotion;
  consumer.Unmarshal_CameraPerson := decode consumer.Build_ResourceUpdateEventCameraPerson;
  consumer.Unmarshal_CameraClipPreview := decode consumer.Build_ResourceUpdateEventCameraClipPreview;
  consumer.rangeKeys m := (map_to_list m).*1;
  consumer.rangeKeys_perm m := reflexivity _;
  consumer.client_Get url :=
    if String.eqb url "https://nest.example/clip"
    then inr {| consumer.Header_ContentType := "video/mp4";
                consumer.Body_data := "clip-bytes"; consumer.Body_err := None |}
    else inl (errorString ("Get " +:+ quoted url +:+ ": no such host"));
  consumer.ExtensionsByType typ :=
    if String.eqb typ "video/mp4" then inr [".mp4"] else inr [];
  consumer.Format := format_from 0;
|}.

Definition processor : consumer.NestDoorbellEventProcessor := {|
  consumer.doorbellDeviceName := "enterprises/p/devices/d";
  consumer.outputDir := "output";
  consumer.outputFileNameFormat := "2006/01/02/15/{eventSessionId}";
|}.

(** A world with the output directory only, at 2023-06-01T10:20:30. *)
Definition world0 : consumer.World := {|
  consumer.fs := {[ "output" := consumer.FDir ]};
  consumer.clock := Date 2023 6 1 10 20 30 0;
  consumer.effects := [];
|}.

Definition clip : consumer.ResourceUpdateEventCameraClipPreview := {|
  consumer.EventSessionId := "s1";
  consumer.PreviewUrl := "https://nest.example/clip";
|}.

Definition clipReply : consumer.HttpResponse := {|
  consumer.Header_ContentType := "video/mp4";
  consumer.Body_data := "clip-bytes";
  consumer.Body_err := None;
|}.



(** A resource update with a sound event only. *)
Definition soundUpdate : consumer.ResourceUpdate := {|
  consumer.Name := "enterprises/p/devices/d";
  consumer.Traits := {[ "sdm.devices.traits.Info" := "front door" ]};
  consumer.Events := {[ "sdm.devices.events.CameraSound.Sound" := "s2 e2" ]};
|}.

Definition soundEvent : consumer.DeviceEvent := {|
  consumer.EventId := "e2"; consumer.Timestamp := "2023-06-01T10:00:00Z";
  consumer.relationUpdate := None;
  consumer.resourceUpdate := Some soundUpdate;
  consumer.ResourceGroup := []; consumer.EventThreadId := None;
  consumer.EventThreadState := None; consumer.UserId := "u1";
|}.

(** An event with a relation update and a resource update that has all
    three primary events. *)
Definition crowdedUpdate : consumer.ResourceUpdate := {|
  consumer.Name := "enterprises/p/devices/d";
  consumer.Traits := ∅;
  consumer.Events :=
    {[ consumer.ResourceUpdateEventTypeCameraPerson := "s3 e5";
       consumer.ResourceUpdateEventTypeCameraMotion := "s3 e4";
       consumer.ResourceUpdateEventTypeDoorbellChime := "s3 e3" ]};
|}.

Definition crowdedEvent : consumer.DeviceEvent := {|
  consumer.EventId := "e3"; consumer.Timestamp := "2023-06-01T10:00:00Z";
  consumer.relationUpdate :=
    Some {| consumer.Type_ := "UPDATED";
            consumer.Subject := "enterprises/p/structures/s/rooms/r";
            consumer.Object := "enterprises/p/devices/d" |};
  consumer.resourceUpdate := Some crowdedUpdate;
  consumer.ResourceGroup := []; consumer.EventThreadId := None;
  consumer.EventThreadState := None; consumer.UserId := "u1";
|}.

End testbed.

(** * Properties *)

(** ** The decomposer: fuel *)

Lemma approx_refl {A : Type} (o : outcome A) : approx o o.
Proof. right; reflexivity. Qed.

Lemma approx_bind {A B : Type} (o1 o2 : outcome A) (k1 k2 : A -> outcome B) :
  approx o1 o2 -> (forall a, approx (k1 a) (k2 a)) -> approx (o1 ≫= k1) (o2 ≫= k2).
Proof.
  intros [-> | ->] Hk.
  - left; reflexivity.
  - destruct o2 as [a | msg |]; simpl.
    + apply Hk.
    + right; reflexivity.
    + left; reflexivity.
Qed.

(** One more unit of fuel changes nothing for a run that had enough. *)
Lemma listTargetDirectories_fuel_S (n : nat) (fromTs toTs : time.Time) :
  approx (server.listTargetDirectories n fromTs toTs)
         (server.listTargetDirectories (S n) fromTs toTs).
Proof.
  revert fromTs toTs; induction n as [| n IH]; intros fromTs toTs.
  - left; reflexivity.
  - cbn [server.listTargetDirectories].
    repeat first
      [ apply approx_refl
      | apply approx_bind; [| intros [? ?]]
      | apply approx_bind; [| intros ?]
      | apply IH
      | match goal with |- approx (if ?b then _ else _) _ => destruct b end ].
Qed.

(** A run that ends with [n] units of fuel ends in the same way with
    more. *)
Lemma listTargetDirectories_fuel_add (n k : nat) (fromTs toTs : time.Time)
  (r : outcome (list string)) :
  server.listTargetDirectories n fromTs toTs = r ->
  r <> OutOfFuel ->
  server.listTargetDirectories (n + k) fromTs toTs = r.
Proof.
  intros Hr Hne; induction k as [| k IH].
  - rewrite Nat.add_0_r; exact Hr.
  - rewrite Nat.add_succ_r.
    destruct (listTargetDirectories_fuel_S (n + k) fromTs toTs) as [E | E].
    + congruence.
    + rewrite <- E; exact IH.
Qed.

(** ** The decomposer on the ranges of the specification *)

(** C1 (the code does otherwise): the range from 2023-05-31T23:00 to
    2023-06-01T01:00 is well formed, the decomposer returns on it with any
    fuel from 2 on, and the instant 2023-05-31T23:00, which lies in the
    range, has its hour bucket [2023/05/31/23] under none of the returned
    prefixes. *)
Theorem listTargetDirectories_leaves_hours_uncovered :
  let fromTs := time.Date 2023 5 31 23 0 0 0 in
  let toTs := time.Date 2023 6 1 1 0 0 0 in
  fromTs < toTs /\
  server.hourBucket fromTs = "2023/05/31/23" /\
  forall k : nat, exists dirs : list string,
    server.listTargetDirectories (2 + k) fromTs toTs = Ret dirs /\
    server.covers dirs fromTs = false.
Proof.
  cbv zeta; split; [reflexivity |]; split; [vm_compute; reflexivity |].
  intros k; exists [].
  split; [| reflexivity].
  apply listTargetDirectories_fuel_add; [vm_compute; reflexivity | discriminate].
Qed.

(** The same on the default range of the endpoint, the 24 hours before
    2023-06-15T10:15: only the hours 00 to 09 of the last day are returned,
    and noon of the day before is not covered. *)
Lemma listTargetDirectories_last_day (k : nat) :
  let fromTs := time.Date 2023 6 14 10 15 0 0 in
  let toTs := time.Date 2023 6 15 10 15 0 0 in
  let dirs := ["2023/06/15/00"; "2023/06/15/01"; "2023/06/15/02"; "2023/06/15/03";
               "2023/06/15/04"; "2023/06/15/05"; "2023/06/15/06"; "2023/06/15/07";
               "2023/06/15/08"; "2023/06/15/09"] in
  server.listTargetDirectories (2 + k) fromTs toTs = Ret dirs /\
  server.covers dirs (time.Date 2023 6 14 12 0 0 0) = false.
Proof.
  cbv zeta; split; [| vm_compute; reflexivity].
  apply listTargetDirectories_fuel_add; [vm_compute; reflexivity | discriminate].
Qed.

(** C2 (the code does otherwise): on the year 2023, from
    2023-01-01T00:00:00 to 2024-01-01T00:00:00, the decomposer returns the
    empty list, not the list of [2023] alone, with any fuel from 3 on. *)
Theorem listTargetDirectories_whole_year (k : nat) :
  server.listTargetDirectories (3 + k)
    (time.Date 2023 1 1 0 0 0 0) (time.Date 2024 1 1 0 0 0 0) = Ret [].
Proof.
  apply listTargetDirectories_fuel_add; [vm_compute; reflexivity | discriminate].
Qed.

(** C3 (the code does otherwise): from 2023-05-31T23:00:00 to
    2023-06-01T01:00:00 the decomposer returns the empty list, not the two
    hour buckets on either side of the month boundary, with any fuel from
    2 on. *)
Theorem listTargetDirectories_across_months (k : nat) :
  server.listTargetDirectories (2 + k)
    (time.Date 2023 5 31 23 0 0 0) (time.Date 2023 6 1 1 0 0 0) = Ret [].
Proof.
  apply listTargetDirectories_fuel_add; [vm_compute; reflexivity | discriminate].
Qed.

(** C4 (the code does otherwise): from 2022-02-01T00:00:00 to
    2023-01-01T00:00:00, a well-formed range, the second check of the month
    block fires: the year block is passed over (the last nanosecond of the
    range is in 2022), February differs from December, and February is
    larger than the month of the end as the check reads it, January. *)
Theorem listTargetDirectories_month_check_fires (k : nat) :
  let fromTs := time.Date 2022 2 1 0 0 0 0 in
  let toTs := time.Date 2023 1 1 0 0 0 0 in
  fromTs < toTs /\
  server.listTargetDirectories (1 + k) fromTs toTs
  = Panic "fromTs.Month() must not be larger than toTs".
Proof.
  cbv zeta; split; [reflexivity |].
  apply listTargetDirectories_fuel_add; [vm_compute; reflexivity | discriminate].
Qed.

(** ** The [/list] endpoint: the parameters *)

Section ListEndpoint.

Context `{env : server.ServerEnv}.




(** ** The [/list] endpoint: errors of the walk *)

(** A callback that never returns an error is never stopped: the walk of
    an entry returns no error. *)
Lemma walkDir_never_fails {S : Type} (fn : server.WalkDirFunc S) :
  (forall path d err s, snd (fn path d err s) = None) ->
  forall (d : server.node) (path : string) (s : S),
    snd (server.walkDir fn path d s) = None.
Proof.
  intros Hfn.
  fix IH 1.
  intros d path s.
  destruct d as [| | entries readErr]; cbn [server.walkDir].
  - pose proof (Hfn path (Some server.Regular) None s) as E.
    destruct (fn path (Some server.Regular) None s) as [s1 [e |]]; simpl in *;
      [discriminate | reflexivity].
  - pose proof (Hfn path (Some server.Irregular) None s) as E.
    destruct (fn path (Some server.Irregular) None s) as [s1 [e |]]; simpl in *;
      [discriminate | reflexivity].
  - set (d := server.Directory entries readErr).
    pose proof (Hfn path (Some d) None s) as E.
    destruct (fn path (Some d) None s) as [s1 [e |]]; simpl in E; [discriminate |].
    assert (exists s2, (match readErr with
                        | Some e => fn path (Some d) (Some e) s1
                        | None => (s1, None)
                        end) = (s2, None)) as [s2 ->].
    { destruct readErr as [e |]; [| eexists; reflexivity].
      pose proof (Hfn path (Some d) (Some e) s1) as E2.
      destruct (fn path (Some d) (Some e) s1) as [s2 [e2 |]]; simpl in E2;
        [discriminate | eexists; reflexivity]. }
    clear E; revert s2.
    induction entries as [| [name d1] rest IHrest]; intros s2; [reflexivity |].
    pose proof (IH d1 (filepath.Join [path; name]) s2) as E1.
    destruct (server.walkDir fn (filepath.Join [path; name]) d1 s2) as [s3 [e3 |]];
      simpl in E1; [discriminate |].
    apply IHrest.
Qed.

Lemma collect_never_fails (directory path : string) (d : option server.node)
  (err : option error) (s : list string) :
  snd (server.collect directory path d err s) = None.
Proof.
  unfold server.collect.
  destruct d as [d |]; [| reflexivity].
  destruct (server.IsRegular d); [| reflexivity].
  destruct (server.Rel directory path); reflexivity.
Qed.

Lemma WalkDir_collect_never_fails (directory root : string) (s : list string) :
  snd (server.WalkDir root (server.collect directory) s) = None.
Proof.
  unfold server.WalkDir.
  destruct (server.Lstat root) as [err | info].
  - apply collect_never_fails.
  - pose proof (walkDir_never_fails (server.collect directory)
                  (collect_never_fails directory) info root s) as E.
    destruct (server.walkDir (server.collect directory) root info s) as [s1 [e |]];
      simpl in E; [discriminate | reflexivity].
Qed.

(** C7, as amended: on a request with a valid range on which the
    decomposer returns, the errors of the filesystem met by the walks are
    not reported: every walk returns without error, whatever was stat'ed or
    read, and the reply is 200, with the encoding of the collected paths,
    when they encode as JSON, and 500 only when they do not. *)
Theorem list_reply_ignores_walk_errors (fuel : nat) (directory : string)
  (query : gmap string (list string)) (now fromTs toTs : time.Time)
  (dirs : list string) :
  server.listRange query now = inr (fromTs, toTs) ->
  server.listTargetDirectories fuel fromTs toTs = Ret dirs ->
  (forall (d : string) (s : list string),
      snd (server.WalkDir (filepath.Join [directory; d]) (server.collect directory) s)
      = None) /\
  exists resp : server.Response,
    server.listHandler fuel directory query now = Ret resp /\
    server.StatusCode resp
    = match server.Marshal (server.collected directory dirs) with
      | inr _ => 200
      | inl _ => 500
      end /\
    forall resultJson : string,
      server.Marshal (server.collected directory dirs) = inr resultJson ->
      server.Body resp = server.Text resultJson.
Proof.
  intros Hrange Hdirs.
  split; [intros d s; apply WalkDir_collect_never_fails |].
  unfold server.listHandler; rewrite Hrange, Hdirs; cbn.
  eexists; split; [reflexivity |].
  unfold server.listFiles.
  destruct (server.Marshal (server.collected directory dirs)) as [err | json].
  - split; [reflexivity | discriminate].
  - split; [reflexivity |].
    intros resultJson E; injection E as <-; reflexivity.
Qed.

End ListEndpoint.


(** C7 as the specification has it fails: on the request
    [from=1685577600&to=1685584800] (2023-06-01 from 00:00 to 02:00) the
    first candidate directory cannot be read to its end and the second
    cannot be stat'ed, and the reply is 200. *)
Lemma list_walk_error_answered_200 :
  let query : gmap string (list string) :=
    {[ "from" := ["1685577600"]; "to" := ["1685584800"] ]} in
  exists (fromTs toTs : time.Time) (resp : server.Response),
    server.listRange query 0 = inr (fromTs, toTs) /\
    server.listTargetDirectories 4 fromTs toTs = Ret ["2023/06/01/00"; "2023/06/01/01"] /\
    server.walkErrors (env := testbed.brokenDisk) "clips" ["2023/06/01/00"; "2023/06/01/01"]
    = [errorString "readdirent: input/output error";
       errorString "lstat clips/2023/06/01/01: no such file or directory"] /\
    server.listHandler (env := testbed.brokenDisk) 4 "clips" query 0 = Ret resp /\
    server.StatusCode resp = 200 /\
    server.StatusCode resp <> 500.
Proof.
  cbv zeta.
  exists (time.Unix 1685577600 0), (time.Unix 1685584800 0).
  eexists.
  split; [vm_compute; reflexivity |].
  split; [vm_compute; reflexivity |].
  split; [vm_compute; reflexivity |].
  split; [vm_compute; reflexivity |].
  split; [reflexivity | discriminate].
Qed.

(** C7, as amended, on that request. *)
Lemma list_reply_ignores_walk_errors_witness :
  exists resp : server.Response,
    server.listHandler (env := testbed.brokenDisk) 4 "clips"
      {[ "from" := ["1685577600"]; "to" := ["1685584800"] ]} 0 = Ret resp /\
    server.StatusCode resp = 200.
Proof.
  assert (server.listRange {[ "from" := ["1685577600"]; "to" := ["1685584800"] ]} 0
          = inr (time.Unix 1685577600 0, time.Unix 1685584800 0)) as Hrange
    by (vm_compute; reflexivity).
  assert (server.listTargetDirectories 4 (time.Unix 1685577600 0) (time.Unix 1685584800 0)
          = Ret ["2023/06/01/00"; "2023/06/01/01"]) as Hdirs
    by (vm_compute; reflexivity).
  destruct (list_reply_ignores_walk_errors (env := testbed.brokenDisk) 4 "clips"
              _ _ _ _ _ Hrange Hdirs) as [_ [resp [Hreply [Hcode _]]]].
  exists resp; split; [exact Hreply |].
  rewrite Hcode; vm_compute; reflexivity.
Defined.

(** ** The event consumer: effects of a run *)

Section Effects.

Import consumer.

Context {env : ConsumerEnv}.

Lemma emits_Ret {A : Type} (P : effect -> Prop) (m : M A) (w : World) (a : A) (w' : World) :
  emits P m -> m w = Ret (a, w') ->
  exists new, effects w' = effects w ++ new /\ Forall P new.
Proof. intros Hm E; specialize (Hm w); rewrite E in Hm; exact Hm. Qed.

Lemma emits_nothing {A : Type} (P : effect -> Prop) (f : World -> A) :
  emits P (fun w => Ret (f w, w)).
Proof.
  intros w; exists []; split; [symmetry; apply app_nil_r | constructor].
Qed.

Lemma emits_ret {A : Type} (P : effect -> Prop) (a : A) : emits P (mret a).
Proof. exact (emits_nothing P (fun _ => a)). Qed.

Lemma emits_bind {A B : Type} (P : effect -> Prop) (m : M A) (k : A -> M B) :
  emits P m -> (forall a, emits P (k a)) -> emits P (m ≫= k).
Proof.
  intros Hm Hk w; specialize (Hm w); unfold mbind, M_bind.
  destruct (m w) as [[a w1] | msg |]; [| contradiction | exact I].
  specialize (Hk a w1).
  destruct (k a w1) as [[b w2] | msg |]; [| contradiction | exact I].
  destruct Hm as (n1 & Q1 & F1), Hk as (n2 & Q2 & F2).
  exists (n1 ++ n2); split.
  - rewrite Q2, Q1, app_assoc; reflexivity.
  - apply Forall_app; split; assumption.
Qed.

Lemma emits_weaken {A : Type} (P Q : effect -> Prop) (m : M A) :
  (forall e, P e -> Q e) -> emits P m -> emits Q m.
Proof.
  intros HPQ Hm w; specialize (Hm w).
  destruct (m w) as [[a w1] | msg |]; [| contradiction | exact I].
  destruct Hm as (new & Hnew & F).
  exists new; split; [exact Hnew |].
  eapply Forall_impl; [exact F | exact HPQ].
Qed.

Lemma emits_emit (P : effect -> Prop) (e : effect) : P e -> emits P (emit e).
Proof.
  intros He w; exists [e]; split; [reflexivity | repeat constructor; exact He].
Qed.

Lemma emits_Stat_IsNotExist (P : effect -> Prop) (name : string) :
  emits P (Stat_IsNotExist name).
Proof. exact (emits_nothing P (fun w => negb (present (fs w) name))). Qed.

Lemma emits_get_clock (P : effect -> Prop) : emits P get_clock.
Proof. exact (emits_nothing P clock). Qed.

Lemma emits_MkdirAll (path : string) : emits isIO (MkdirAll path).
Proof.
  intros w; unfold MkdirAll.
  destruct (mkdirAll _ path (fs w));
    (exists [EMkdirAll path]; split; [reflexivity | repeat constructor]).
Qed.

Lemma emits_Create (name : string) : emits isIO (Create name).
Proof.
  intros w; unfold Create.
  destruct (create name (fs w));
    (exists [ECreate name]; split; [reflexivity | repeat constructor]).
Qed.

Lemma emits_Copy (name : string) (resp : HttpResponse) : emits isIO (Copy name resp).
Proof.
  intros w; exists []; split; [symmetry; apply app_nil_r | constructor].
Qed.

Lemma emits_probe (p : NestDoorbellEventProcessor) (fileNameFormat sessionId ext : string)
  (fuel : nat) :
  forall i : Z, emits isIO (probe fuel p fileNameFormat sessionId ext i).
Proof.
  induction fuel as [| fuel IH]; intros i.
  - intros w; exact I.
  - cbn [probe].
    apply emits_bind; [apply emits_Stat_IsNotExist |].
    intros [|]; [apply emits_ret |].
    apply emits_bind; [apply emits_emit; exact I | intros _; apply IH].
Qed.

Lemma emits_download (p : NestDoorbellEventProcessor) (fuel : nat)
  (clipPreview : ResourceUpdateEventCameraClipPreview) :
  emits isIO (downloadAndSaveCameraClipPreview p fuel clipPreview).
Proof.
  unfold downloadAndSaveCameraClipPreview.
  apply emits_bind; [apply emits_emit; exact I | intros _].
  destruct (client_Get (PreviewUrl clipPreview)) as [err | resp]; [apply emits_ret |].
  apply emits_bind.
  { destruct (ExtensionsByType (Header_ContentType resp)) as [err | [| e es]];
      try apply emits_ret;
      (apply emits_bind; [apply emits_emit; exact I | intros _; apply emits_ret]). }
  intros extensions.
  apply emits_bind; [apply emits_get_clock | intros now].
  apply emits_bind; [apply emits_probe | intros fileName].
  apply emits_bind; [apply emits_Stat_IsNotExist | intros notExist].
  apply emits_bind.
  { destruct notExist; [apply emits_MkdirAll | apply emits_ret]. }
  intros [err |]; [apply emits_ret |].
  apply emits_bind; [apply emits_Create |].
  intros [err |]; [apply emits_ret |].
  apply emits_bind; [apply emits_Copy |].
  intros [numWritten [err |]]; [apply emits_ret |].
  apply emits_bind; [apply emits_emit; exact I | intros _; apply emits_ret].
Qed.

(** What a handler does after its line in the log: the download, if there
    is a clip preview. *)
Lemma emits_after_log (p : NestDoorbellEventProcessor) (fuel : nat)
  (clipPreview : option ResourceUpdateEventCameraClipPreview) :
  emits isIO
    (match clipPreview with
     | Some clipPreview =>
         err ← downloadAndSaveCameraClipPreview p fuel clipPreview;
         match err with
         | Some err => mret (Some err)
         | None => mret None
         end
     | None => mret None
     end).
Proof.
  destruct clipPreview as [cp |]; [| apply emits_ret].
  apply emits_bind; [apply emits_download |].
  intros [err |]; apply emits_ret.
Qed.

Lemma logs_then_io_intro {A : Type} (format : string) (args : list value) (m : M A) :
  emits isIO m -> logs_then_io format args (emit (ELog format args);; m).
Proof.
  intros Hm w; unfold mbind, M_bind; cbn [emit].
  match goal with |- context [m ?w1] => specialize (Hm w1); destruct (m w1) as [[a w2] | |] end;
    [| contradiction | exact I].
  destruct Hm as (io & Q & F); cbn [effects] in Q.
  exists io; split; [| exact F].
  rewrite Q, <- app_assoc; reflexivity.
Qed.

Lemma processChimeEvent_logs (p : NestDoorbellEventProcessor) (fuel : nat)
  (chime : ResourceUpdateEventDoorbellChime)
  (clipPreview : option ResourceUpdateEventCameraClipPreview) :
  logs_then_io "processChimeEvent is not implemented yet: %v, %v"
    [VStr (DoorbellChime_format chime); VStr (CameraClipPreview_format clipPreview)]
    (processChimeEvent p fuel chime clipPreview).
Proof. apply logs_then_io_intro, emits_after_log. Qed.

Lemma processMotionEvent_logs (p : NestDoorbellEventProcessor) (fuel : nat)
  (motion : ResourceUpdateEventCameraMotion)
  (clipPreview : option ResourceUpdateEventCameraClipPreview) :
  logs_then_io "processMotionEvent is not implemented yet: %v, %v"
    [VStr (CameraMotion_format motion); VStr (CameraClipPreview_format clipPreview)]
    (processMotionEvent p fuel motion clipPreview).
Proof. apply logs_then_io_intro, emits_after_log. Qed.

Lemma processPersonEvent_logs (p : NestDoorbellEventProcessor) (fuel : nat)
  (person : ResourceUpdateEventCameraPerson)
  (clipPreview : option ResourceUpdateEventCameraClipPreview) :
  logs_then_io "processPersonEvent is not implemented yet: %v, %v"
    [VStr (CameraPerson_format person); VStr (CameraClipPreview_format clipPreview)]
    (processPersonEvent p fuel person clipPreview).
Proof. apply logs_then_io_intro, emits_after_log. Qed.

Lemma processRelationUpdateEvent_logs (event : DeviceEvent) :
  logs_then_io "processRelationUpdateEvent is not implemented yet: %v" [VEvent event]
    (processRelationUpdateEvent event).
Proof. apply logs_then_io_intro, emits_ret. Qed.


Lemma handlerLines_io (io : list effect) : Forall isIO io -> handlerLines io = [].
Proof.
  induction 1 as [| e io He _ IH]; [reflexivity |].
  unfold handlerLines in *; cbn [flat_map]; rewrite IH.
  destruct e; simpl in He; try contradiction; reflexivity.
Qed.


Lemma logs_then_io_one_line {A : Type} (format : string) (args : list value) (m : M A) :
  logs_then_io format args m ->
  forall w,
    match m w with
    | Ret (_, w') =>
        exists new, effects w' = effects w ++ new /\ (length (handlerLines new) <= 1)%nat
    | Panic _ => False
    | OutOfFuel => True
    end.
Proof.
  intros Hm w; specialize (Hm w).
  destruct (m w) as [[a w'] | |]; [| contradiction | exact I].
  destruct Hm as (io & Q & F).
  exists (ELog format args :: io); split; [exact Q |].
  change (handlerLines (ELog format args :: io)) with (format :: handlerLines io).
  rewrite (handlerLines_io io F); simpl; lia.
Qed.

Lemma returns_at_once {A : Type} (a : A) (w : World) :
  match (mret a : M A) w with
  | Ret (_, w') =>
      exists new, effects w' = effects w ++ new /\ (length (handlerLines new) <= 1)%nat
  | Panic _ => False
  | OutOfFuel => True
  end.
Proof. exists []; split; [symmetry; apply app_nil_r | simpl; lia]. Qed.


(** C10: a resource update is processed whatever the relation update;
    within it a doorbell chime that decodes is handled whatever other keys
    there are, a camera motion when there is no chime, a camera person
    when there is neither; an event with neither update is an error that
    leaves the world as it was; and a run of [Process] never panics and,
    when it returns, has written at most one handler's line to the log. *)
Theorem dispatch_priority (p : NestDoorbellEventProcessor) (fuel : nat)
  (event : DeviceEvent) :
  (forall ru : ResourceUpdate,
      resourceUpdate event = Some ru ->
      Process p fuel event = processResourceUpdateEvent p fuel event) /\
  (forall (ru : ResourceUpdate) (raw : RawMessage) (chime : ResourceUpdateEventDoorbellChime),
      resourceUpdate event = Some ru ->
      Events ru !! ResourceUpdateEventTypeDoorbellChime = Some raw ->
      Unmarshal_DoorbellChime raw = inr chime ->
      Process p fuel event = processChimeEvent p fuel chime (clipPreviewOf ru)) /\
  (forall (ru : ResourceUpdate) (raw : RawMessage) (motion : ResourceUpdateEventCameraMotion),
      resourceUpdate event = Some ru ->
      Events ru !! ResourceUpdateEventTypeDoorbellChime = None ->
      Events ru !! ResourceUpdateEventTypeCameraMotion = Some raw ->
      Unmarshal_CameraMotion raw = inr motion ->
      Process p fuel event = processMotionEvent p fuel motion (clipPreviewOf ru)) /\
  (forall (ru : ResourceUpdate) (raw : RawMessage) (person : ResourceUpdateEventCameraPerson),
      resourceUpdate event = Some ru ->
      Events ru !! ResourceUpdateEventTypeDoorbellChime = None ->
      Events ru !! ResourceUpdateEventTypeCameraMotion = None ->
      Events ru !! ResourceUpdateEventTypeCameraPerson = Some raw ->
      Unmarshal_CameraPerson raw = inr person ->
      Process p fuel event = processPersonEvent p fuel person (clipPreviewOf ru)) /\
  (resourceUpdate event = None ->
   relationUpdate event = None ->
   forall w : World,
     Process p fuel event w
     = Ret (Some (errorString ("Unsupported event: " +:+ DeviceEvent_format event)), w)) /\
  (forall w : World,
      match Process p fuel event w with
      | Ret (_, w') =>
          exists new : list effect,
            effects w' = effects w ++ new /\ (length (handlerLines new) <= 1)%nat
      | Panic _ => False
      | OutOfFuel => True
      end).
Proof.
  repeat split.
  - intros ru Hru; unfold Process; rewrite Hru; reflexivity.
  - intros ru raw chime Hru Hraw Hchime.
    unfold Process, processResourceUpdateEvent; rewrite Hru, Hraw, Hchime; reflexivity.
  - intros ru raw motion Hru Hc Hraw Hmotion.
    unfold Process, processResourceUpdateEvent; rewrite Hru, Hc, Hraw, Hmotion; reflexivity.
  - intros ru raw person Hru Hc Hm Hraw Hperson.
    unfold Process, processResourceUpdateEvent; rewrite Hru, Hc, Hm, Hraw, Hperson;
      reflexivity.
  - intros Hru Hrel w; unfold Process; rewrite Hru, Hrel; reflexivity.
  - unfold Process, processResourceUpdateEvent.
    destruct (resourceUpdate event) as [ru |].
    + destruct (Events ru !! ResourceUpdateEventTypeDoorbellChime) as [raw |].
      { destruct (Unmarshal_DoorbellChime raw); [apply returns_at_once |].
        eapply logs_then_io_one_line, processChimeEvent_logs. }
      destruct (Events ru !! ResourceUpdateEventTypeCameraMotion) as [raw |].
      { destruct (Unmarshal_CameraMotion raw); [apply returns_at_once |].
        eapply logs_then_io_one_line, processMotionEvent_logs. }
      destruct (Events ru !! ResourceUpdateEventTypeCameraPerson) as [raw |].
      { destruct (Unmarshal_CameraPerson raw); [apply returns_at_once |].
        eapply logs_then_io_one_line, processPersonEvent_logs. }
      apply returns_at_once.
    + destruct (relationUpdate event).
      * eapply logs_then_io_one_line, processRelationUpdateEvent_logs.
      * apply returns_at_once.
Qed.


End Effects.

(** ** The event consumer: unsupported resource updates *)

Section Unsupported.

Import consumer.

Context {env : ConsumerEnv}.



End Unsupported.

(** ** The clip downloader: the loop that looks for an unused name *)

Section Probe.

Import consumer.

Context {env : ConsumerEnv}.
Variable p : NestDoorbellEventProcessor.
Variables fileNameFormat sessionId ext : string.

Let name (i : Z) : string := candidate p fileNameFormat sessionId ext i.


Lemma created_app (a b : list effect) : created (a ++ b) = created a ++ created b.
Proof. unfold created; apply flat_map_app. Qed.

(** When the loop returns, it returns the first name that is free, and it
    has only printed. *)
Lemma probe_returns (fuel : nat) :
  forall (i : Z) (w : World) (fileName : string) (w' : World),
    probe fuel p fileNameFormat sessionId ext i w = Ret (fileName, w') ->
    exists k : nat,
      (k < fuel)%nat /\
      fileName = name (counter k i) /\
      (forall j : nat, (j < k)%nat -> present (fs w) (name (counter j i)) = true) /\
      present (fs w) fileName = false /\
      fs w' = fs w /\ clock w' = clock w /\
      exists new, effects w' = effects w ++ new /\ created new = [].
Proof.
  induction fuel as [| fuel IH]; intros i w fileName w' E; [discriminate |].
  cbn [probe] in E.
  unfold mbind, M_bind, Stat_IsNotExist in E.
  destruct (present (fs w) (candidate p fileNameFormat sessionId ext i)) eqn:Hp;
    cbn [negb] in E.
  - unfold emit in E.
    apply IH in E as (k & Hk & Hname & Hbusy & Hfree & Hfs & Hclock & new & Hnew & Hcr).
    cbn [fs clock effects] in *.
    exists (S k).
    split; [lia |].
    split; [unfold counter; rewrite Nat.iter_succ_r; exact Hname |].
    split.
    { intros [| j] Hj; [exact Hp |].
      unfold counter; rewrite Nat.iter_succ_r; apply Hbusy; lia. }
    split; [exact Hfree |].
    split; [exact Hfs |].
    split; [exact Hclock |].
    eexists; split; [rewrite Hnew, <- app_assoc; reflexivity |].
    rewrite created_app, Hcr; reflexivity.
  - injection E as <- <-.
    exists 0%nat.
    split; [lia |].
    split; [reflexivity |].
    split; [intros j Hj; lia |].
    split; [exact Hp |].
    split; [reflexivity |].
    split; [reflexivity |].
    exists []; split; [symmetry; apply app_nil_r | reflexivity].
Qed.


End Probe.

Section Download.

Import consumer.

Context {env : ConsumerEnv}.

Lemma bind_Ret {A B : Type} (m : M A) (k : A -> M B) (w : World) (b : B) (w' : World) :
  (m ≫= k) w = Ret (b, w') ->
  exists a w1, m w = Ret (a, w1) /\ k a w1 = Ret (b, w').
Proof.
  unfold mbind, M_bind.
  destruct (m w) as [[a w1] | msg |]; [| discriminate | discriminate].
  intros E; exists a, w1; split; [reflexivity | exact E].
Qed.

(** [MkdirAll] keeps every entry it finds. *)
Lemma mkdirAll_preserves (n : nat) :
  forall (path : string) (f f' : gmap string fnode),
    mkdirAll n path f = inr f' ->
    forall (q : string) (v : fnode), f !! q = Some v -> f' !! q = Some v.
Proof.
  induction n as [| n IH]; intros path f f' E q v Hq; cbn [mkdirAll] in E;
    destruct (isDirectory f path) eqn:Hdir; try (injection E as <-; exact Hq);
    destruct (f !! path) as [[| content] |] eqn:Hpath; try discriminate.
  - unfold isDirectory in Hdir; rewrite Hpath in Hdir.
    destruct (String.eqb path "."), (String.eqb path "/"); discriminate.
  - destruct (mkdirAll n (filepath.Dir path) f) as [err | f1] eqn:E1; [discriminate |].
    injection E as <-.
    rewrite lookup_insert_ne by congruence.
    eapply IH; eassumption.
Qed.



(** The step that picks the extension only prints. *)
Lemma extension_step (resp : HttpResponse) (w wb : World) (extensions : list string) :
  (match ExtensionsByType (Header_ContentType resp) with
   | inr (e :: es) => mret (e :: es)
   | r =>
       emit (EPrint "Failed to get extension type from content type(%v): err(%v)"
               [VStr (Header_ContentType resp);
                VErr (match r with inl err => Some err | inr _ => None end)]);;
       mret [".video.unknown"]
   end : M (list string)) w = Ret (extensions, wb) ->
  hd "" extensions = extensionOf resp /\
  fs wb = fs w /\ clock wb = clock w /\
  exists new, effects wb = effects w ++ new /\ created new = [].
Proof.
  unfold extensionOf.
  destruct (ExtensionsByType (Header_ContentType resp)) as [err | [| e es]];
    intros E; injection E as <- <-;
    (split; [reflexivity |]; split; [reflexivity |]; split; [reflexivity |]).
  - eexists; split; reflexivity.
  - eexists; split; reflexivity.
  - exists []; split; [symmetry; apply app_nil_r | reflexivity].
Qed.


End Download.

Section ClipNames.

Import consumer.

Context {env : ConsumerEnv}.
Variable p : NestDoorbellEventProcessor.
Variable clip : ResourceUpdateEventCameraClipPreview.
Variable resp : HttpResponse.




End ClipNames.

(** ** The event consumer on examples *)


(** The text of the error on that resource update. *)
Lemma unsupported_resource_update_text :
  consumer.Process (env := testbed.lab) testbed.processor 1 testbed.soundEvent
    testbed.world0
  = Ret (Some (errorString
                 ("unsupported resource update event:" +:+ nl +:+ tab
                  +:+ "* user id(u1)" +:+ nl +:+ tab
                  +:+ "* events(sdm.devices.events.CameraSound.Sound)" +:+ nl +:+ tab
                  +:+ "* traits(sdm.devices.traits.Info)")),
         testbed.world0).
Proof. vm_compute; reflexivity. Qed.

(** C10 on an event that has a relation update and a resource update with
    all three primary events: the doorbell chime is handled. *)
Lemma dispatch_priority_witness :
  consumer.Process (env := testbed.lab) testbed.processor 1 testbed.crowdedEvent
  = consumer.processChimeEvent (env := testbed.lab) testbed.processor 1
      {| consumer.chime_EventSessionId := "s3"; consumer.chime_EventId := "e3" |}
      (consumer.clipPreviewOf (env := testbed.lab) testbed.crowdedUpdate).
Proof.
  apply (proj1 (proj2 (dispatch_priority (env := testbed.lab) testbed.processor 1
                         testbed.crowdedEvent))
           testbed.crowdedUpdate "s3 e3");
    vm_compute; reflexivity.
Defined.

(** The log of that run has the line of the chime handler only. *)
Lemma dispatch_priority_log :
  exists w' : consumer.World,
    consumer.Process (env := testbed.lab) testbed.processor 1 testbed.crowdedEvent
      testbed.world0 = Ret (None, w') /\
    consumer.handlerLines (consumer.effects w')
    = ["processChimeEvent is not implemented yet: %v, %v"].
Proof. eexists; split; vm_compute; reflexivity. Qed.




(** The request [/list?from=1643673600&to=1672531200], from
    2022-02-01T00:00:00 to 2023-01-01T00:00:00, ends in that panic: the
    handler gives no reply. *)
Lemma list_request_panics :
  server.listHandler (env := testbed.brokenDisk) 4 "clips"
    {[ "from" := ["1643673600"]; "to" := ["1672531200"] ]} 0
  = Panic "fromTs.Month() must not be larger than toTs".
Proof. vm_compute; reflexivity. Qed.

(** The check fires in a recursive call too: on the year from
    2022-06-15T00:00:00 the year block hands the rest of 2022 to the
    recursion, which ends on 2023-01-01T00:00:00. *)
Lemma listTargetDirectories_month_check_fires_inside (k : nat) :
  server.listTargetDirectories (2 + k)
    (time.Date 2022 6 15 0 0 0 0) (time.Date 2023 6 15 0 0 0 0)
  = Panic "fromTs.Month() must not be larger than toTs".
Proof.
  apply listTargetDirectories_fuel_add; [vm_compute; reflexivity | discriminate].
Qed.

(** * Further properties *)

(** ** Decimal text: what [ParseInt] accepts *)

Section Numerals.

Import strconv.












End Numerals.

(** ** The [/list] endpoint: reading the parameters *)

Section Parameters.

Import time.
Import strconv.
Import server.





End Parameters.

(** ** The calendar *)

Section Calendar.

Import time.

Lemma civil_fields (z : Z) :
  let '(y, m, d) := civil_from_days z in
  1 <= m <= 12 /\ 1 <= d <= 31.
Proof.
  unfold civil_from_days. cbv zeta.
  set (z' := z + 719468).
  set (era := z' / 146097).
  set (doe := z' - era * 146097).
  assert (0 <= doe <= 146096) as Hdoe by (subst doe era; Z.div_mod_to_equations; lia).
  clearbody doe. clear era z' z.
  set (yoe := (doe - doe / 1460 + doe / 36524 - doe / 146096) / 365).
  assert (0 <= yoe <= 399) as Hyoe by (subst yoe; Z.div_mod_to_equations; lia).
  set (doy := doe - (365 * yoe + yoe / 4 - yoe / 100)).
  assert (0 <= doy <= 365) as Hdoy.
  { subst doy yoe. Z.div_mod_to_equations. lia. }
  clearbody doy.
  set (mp := (5 * doy + 2) / 153).
  assert (0 <= mp <= 11) by (subst mp; Z.div_mod_to_equations; lia).
  split.
  - destruct (mp <? 10) eqn:E; [apply Z.ltb_lt in E | apply Z.ltb_ge in E]; lia.
  - subst mp. Z.div_mod_to_equations. lia.
Qed.

Lemma days_from_civil_from_days (z : Z) :
  let '(y, m, d) := civil_from_days z in days_from_civil y m d = z.
Proof.
  unfold civil_from_days. cbv zeta.
  set (z' := z + 719468).
  set (era := z' / 146097).
  set (doe := z' - era * 146097).
  assert (0 <= doe <= 146096) as Hdoe by (subst doe era; Z.div_mod_to_equations; lia).
  assert (z = era * 146097 + doe - 719468) as Hz by (subst doe z'; lia).
  clearbody doe era. clear z'. subst z.
  set (yoe := (doe - doe / 1460 + doe / 36524 - doe / 146096) / 365).
  assert (0 <= yoe <= 399) as Hyoe by (subst yoe; Z.div_mod_to_equations; lia).
  set (doy := doe - (365 * yoe + yoe / 4 - yoe / 100)).
  assert (0 <= doy <= 365) as Hdoy.
  { subst doy yoe. Z.div_mod_to_equations. lia. }
  assert (doe = yoe * 365 + yoe / 4 - yoe / 100 + doy) as Hdoe' by (subst doy; lia).
  clearbody doy yoe. subst doe.
  set (mp := (5 * doy + 2) / 153).
  assert (0 <= mp <= 11) as Hmp by (subst mp; Z.div_mod_to_equations; lia).
  set (d := doy - (153 * mp + 2) / 5 + 1).
  assert (doy = (153 * mp + 2) / 5 + d - 1) as Hd by (subst d; lia).
  assert (mp <= 9 \/ 306 <= doy) as Hjf by (subst mp; Z.div_mod_to_equations; lia).
  clearbody d mp.
  unfold days_from_civil.
  destruct (mp <? 10) eqn:E; [apply Z.ltb_lt in E | apply Z.ltb_ge in E].
  - assert ((mp + 3 <=? 2) = false) as -> by (apply Z.leb_gt; lia).
    assert ((mp + 3 >? 2) = true) as -> by (apply Z.gtb_lt; lia).
    replace (mp + 3 - 3) with mp by lia.
    replace ((yoe + era * 400) / 400) with era by (Z.div_mod_to_equations; lia).
    replace (yoe + era * 400 - era * 400) with yoe by lia.
    lia.
  - assert ((mp - 9 <=? 2) = true) as -> by (apply Z.leb_le; lia).
    assert ((mp - 9 >? 2) = false) as -> by (rewrite Z.gtb_ltb; apply Z.ltb_ge; lia).
    replace (mp - 9 + 9) with mp by lia.
    replace (yoe + era * 400 + 1 - 1) with (yoe + era * 400) by lia.
    replace ((yoe + era * 400) / 400) with era by (Z.div_mod_to_equations; lia).
    replace (yoe + era * 400 - era * 400) with yoe by lia.
    lia.
Qed.

Lemma days_from_civil_day (y m d : Z) :
  days_from_civil y m d = days_from_civil y m 1 + (d - 1).
Proof. unfold days_from_civil; lia. Qed.

Lemma days_from_civil_month_start (y m d : Z) :
  1 <= m <= 12 ->
  days_from_civil y m d = month_start (12 * y + (m - 1)) + (d - 1).
Proof.
  intros Hm; unfold month_start.
  replace ((12 * y + (m - 1)) / 12) with y by (Z.div_mod_to_equations; lia).
  replace ((12 * y + (m - 1)) mod 12 + 1) with m by (Z.div_mod_to_equations; lia).
  apply days_from_civil_day.
Qed.

(** The days of a year that begins in March, by its place in the cycle of
    400 years. *)
Lemma year_length (y : Z) :
  let era := y / 400 in
  let yoe := y - era * 400 in
  let era1 := (y + 1) / 400 in
  let yoe1 := y + 1 - era1 * 400 in
  365 <= (era1 * 146097 + (yoe1 * 365 + yoe1 / 4 - yoe1 / 100))
         - (era * 146097 + (yoe * 365 + yoe / 4 - yoe / 100)) <= 366.
Proof. cbv zeta. Z.div_mod_to_equations. lia. Qed.

Lemma month_start_step (N : Z) : 28 <= month_start (N + 1) - month_start N <= 31.
Proof.
  unfold month_start.
  assert (exists y m, N = 12 * y + m /\ 0 <= m <= 11) as (y & m & -> & Hm).
  { exists (N / 12), (N mod 12). Z.div_mod_to_equations. lia. }
  replace ((12 * y + m) / 12) with y by (Z.div_mod_to_equations; lia).
  replace ((12 * y + m) mod 12) with m by (Z.div_mod_to_equations; lia).
  destruct (Z.eq_dec m 11) as [-> | Hne].
  - replace ((12 * y + 11 + 1) / 12) with (y + 1) by (Z.div_mod_to_equations; lia).
    replace ((12 * y + 11 + 1) mod 12) with 0 by (Z.div_mod_to_equations; lia).
    unfold days_from_civil.
    change (0 + 1 <=? 2) with true; change (0 + 1 >? 2) with false;
      change (11 + 1 <=? 2) with false; change (11 + 1 >? 2) with true; cbv iota.
    replace (y + 1 - 1) with y by lia.
    Z.div_mod_to_equations. lia.
  - replace ((12 * y + m + 1) / 12) with y by (Z.div_mod_to_equations; lia).
    replace ((12 * y + m + 1) mod 12) with (m + 1) by (Z.div_mod_to_equations; lia).
    unfold days_from_civil.
    destruct (Z.eq_dec m 1) as [-> | Hne1].
    + change (1 + 1 <=? 2) with true; change (1 + 1 >? 2) with false;
        change (1 + 1 + 1 <=? 2) with false; change (1 + 1 + 1 >? 2) with true; cbv iota.
      pose proof (year_length (y - 1)) as Hlen; cbv zeta in Hlen.
      replace (y - 1 + 1) with y in Hlen by lia.
      Z.div_mod_to_equations. lia.
    + destruct (Z.eq_dec m 0) as [-> | Hne0].
      * change (0 + 1 <=? 2) with true; change (0 + 1 >? 2) with false;
          change (0 + 1 + 1 <=? 2) with true; change (0 + 1 + 1 >? 2) with false; cbv iota.
        Z.div_mod_to_equations. lia.
      * assert ((m + 1 <=? 2) = false) as -> by (apply Z.leb_gt; lia).
        assert ((m + 1 + 1 <=? 2) = false) as -> by (apply Z.leb_gt; lia).
        assert ((m + 1 >? 2) = true) as -> by (apply Z.gtb_lt; lia).
        assert ((m + 1 + 1 >? 2) = true) as -> by (apply Z.gtb_lt; lia).
        Z.div_mod_to_equations. lia.
Qed.

Lemma month_start_add (k : nat) (N : Z) :
  month_start N + 28 * Z.of_nat k <= month_start (N + Z.of_nat k).
Proof.
  induction k as [| k IH].
  - replace (N + Z.of_nat 0) with N by lia; lia.
  - pose proof (month_start_step (N + Z.of_nat k)) as Hstep.
    replace (N + Z.of_nat (S k)) with (N + Z.of_nat k + 1) by lia.
    lia.
Qed.

Lemma month_start_mono (N1 N2 : Z) : N1 <= N2 -> month_start N1 <= month_start N2.
Proof.
  intros H.
  pose proof (month_start_add (Z.to_nat (N2 - N1)) N1) as Hadd.
  replace (N1 + Z.of_nat (Z.to_nat (N2 - N1))) with N2 in Hadd by lia.
  lia.
Qed.

Lemma month_start_lt (N1 N2 : Z) : N1 < N2 -> month_start N1 < month_start N2.
Proof.
  intros H.
  pose proof (month_start_step N1).
  pose proof (month_start_mono (N1 + 1) N2 ltac:(lia)).
  lia.
Qed.

(** A day lies in the month of its index, and its fields are those of the
    index and of its place in the month. *)
Lemma civil_from_days_month (z : Z) :
  month_start (month_index z) <= z < month_start (month_index z + 1) /\
  civil_from_days z
  = (month_index z / 12, month_index z mod 12 + 1, z - month_start (month_index z) + 1).
Proof.
  pose proof (civil_fields z) as Hf.
  pose proof (days_from_civil_from_days z) as Hr.
  unfold month_index.
  destruct (civil_from_days z) as [[y m] d] eqn:E; cbn [fst snd].
  destruct Hf as [Hm Hd].
  rewrite (days_from_civil_month_start y m d Hm) in Hr.
  replace ((12 * y + (m - 1)) / 12) with y by (Z.div_mod_to_equations; lia).
  replace ((12 * y + (m - 1)) mod 12 + 1) with m by (Z.div_mod_to_equations; lia).
  split; [split; [lia |] | f_equal; lia].
  (* the day is before the first of the next month *)
  revert E. unfold civil_from_days. cbv zeta.
  set (z' := z + 719468).
  set (era := z' / 146097).
  set (doe := z' - era * 146097).
  assert (0 <= doe <= 146096) as Hdoe by (subst doe era; Z.div_mod_to_equations; lia).
  assert (z = era * 146097 + doe - 719468) as Hz by (subst doe z'; lia).
  clearbody doe era. clear z'. 
  set (yoe := (doe - doe / 1460 + doe / 36524 - doe / 146096) / 365).
  assert (0 <= yoe <= 399) as Hyoe by (subst yoe; Z.div_mod_to_equations; lia).
  set (doy := doe - (365 * yoe + yoe / 4 - yoe / 100)).
  assert (0 <= doy <= 365) as Hdoy.
  { subst doy yoe. Z.div_mod_to_equations. lia. }
  assert (yoe = 399 \/ doe < (yoe + 1) * 365 + (yoe + 1) / 4 - (yoe + 1) / 100) as Hnext.
  { subst yoe. Z.div_mod_to_equations. lia. }
  assert (doe = yoe * 365 + yoe / 4 - yoe / 100 + doy) as Hdoe' by (subst doy; lia).
  clearbody doy yoe.
  set (mp := (5 * doy + 2) / 153).
  assert (0 <= mp <= 11) as Hmp by (subst mp; Z.div_mod_to_equations; lia).
  assert (doy < (153 * (mp + 1) + 2) / 5) as Hup by (subst mp; Z.div_mod_to_equations; lia).
  clearbody mp.
  unfold month_start.
  destruct (mp <? 10) eqn:Hlt; [apply Z.ltb_lt in Hlt | apply Z.ltb_ge in Hlt];
    intros E; injection E as Ey Em Ed; rewrite Em in Ey.
  - assert ((m <=? 2) = false) as Hm2 by (apply Z.leb_gt; lia).
    rewrite Hm2 in Ey.
    replace ((12 * y + (m - 1) + 1) / 12) with (y + (mp + 3) / 12)
      by (Z.div_mod_to_equations; lia).
    replace ((12 * y + (m - 1) + 1) mod 12 + 1) with ((mp + 3) mod 12 + 1)
      by (Z.div_mod_to_equations; lia).
    destruct (Z.eq_dec mp 9) as [-> | Hne].
    + change ((9 + 3) / 12) with 1; change ((9 + 3) mod 12 + 1) with 1.
      unfold days_from_civil.
      change (1 <=? 2) with true; change (1 >? 2) with false; cbv iota.
      replace (y + 1 - 1) with y by lia.
      subst y. 
      replace ((yoe + era * 400) / 400) with era by (Z.div_mod_to_equations; lia).
      replace (yoe + era * 400 - era * 400) with yoe by lia.
      change ((153 * (9 + 1) + 2) / 5) with 306 in Hup.
      change ((153 * (1 + 9) + 2) / 5) with 306.
      lia.
    + replace ((mp + 3) / 12) with 0 by (Z.div_mod_to_equations; lia).
      replace ((mp + 3) mod 12 + 1) with (mp + 4) by (Z.div_mod_to_equations; lia).
      unfold days_from_civil.
      assert ((mp + 4 <=? 2) = false) as -> by (apply Z.leb_gt; lia).
      assert ((mp + 4 >? 2) = true) as -> by (apply Z.gtb_lt; lia).
      replace (y + 0) with y by lia.
      subst y.
      replace ((yoe + era * 400) / 400) with era by (Z.div_mod_to_equations; lia).
      replace (yoe + era * 400 - era * 400) with yoe by lia.
      replace (mp + 4 - 3) with (mp + 1) by lia.
      lia.
  - assert ((m <=? 2) = true) as Hm2 by (apply Z.leb_le; lia).
    rewrite Hm2 in Ey.
    replace ((12 * y + (m - 1) + 1) / 12) with y by (Z.div_mod_to_equations; lia).
    replace ((12 * y + (m - 1) + 1) mod 12 + 1) with (m + 1)
      by (Z.div_mod_to_equations; lia).
    unfold days_from_civil.
    destruct (Z.eq_dec mp 10) as [-> | Hne].
    + assert (m = 1) as -> by lia.
      change (1 + 1 <=? 2) with true; change (1 + 1 >? 2) with false; cbv iota.
      replace (y - 1) with (yoe + era * 400) by lia.
      replace ((yoe + era * 400) / 400) with era by (Z.div_mod_to_equations; lia).
      replace (yoe + era * 400 - era * 400) with yoe by lia.
      change ((153 * (10 + 1) + 2) / 5) with 337 in Hup.
      change ((153 * (1 + 1 + 9) + 2) / 5) with 337.
      lia.
    + assert (mp = 11) as -> by lia.
      assert (m = 2) as -> by lia.
      change (2 + 1 <=? 2) with false; change (2 + 1 >? 2) with true; cbv iota.
      change ((153 * (2 + 1 - 3) + 2) / 5) with 0.
      subst y.
      destruct (Z.eq_dec yoe 399) as [-> | Hne399].
      * replace ((399 + era * 400 + 1) / 400) with (era + 1) by (Z.div_mod_to_equations; lia).
        replace (399 + era * 400 + 1 - (era + 1) * 400) with 0 by lia.
        change (0 / 4) with 0; change (0 / 100) with 0.
        lia.
      * assert (yoe < 399) by lia.
        destruct Hnext as [-> | Hnext]; [lia |].
        replace ((yoe + era * 400 + 1) / 400) with era by (Z.div_mod_to_equations; lia).
        replace (yoe + era * 400 + 1 - era * 400) with (yoe + 1) by lia.
        lia.
Qed.

Lemma month_index_unique (z N : Z) :
  month_start N <= z < month_start (N + 1) -> month_index z = N.
Proof.
  intros H.
  destruct (civil_from_days_month z) as [Hz _].
  destruct (Z.lt_trichotomy (month_index z) N) as [Hlt | [Heq | Hgt]]; [| exact Heq |].
  - pose proof (month_start_mono (month_index z + 1) N ltac:(lia)). lia.
  - pose proof (month_start_mono (N + 1) (month_index z) ltac:(lia)). lia.
Qed.

Lemma month_index_mono (z1 z2 : Z) : z1 <= z2 -> month_index z1 <= month_index z2.
Proof.
  intros H.
  destruct (civil_from_days_month z1) as [Hz1 _].
  destruct (civil_from_days_month z2) as [Hz2 _].
  destruct (Z_le_gt_dec (month_index z1) (month_index z2)) as [Hle | Hgt]; [exact Hle |].
  pose proof (month_start_mono (month_index z2 + 1) (month_index z1) ltac:(lia)). lia.
Qed.

Lemma Year_index (t : Time) : Year t = month_index (t / nsPerDay) / 12.
Proof.
  unfold Year; destruct (civil_from_days_month (t / nsPerDay)) as [_ ->]; reflexivity.
Qed.

Lemma Month_index (t : Time) : Month t = month_index (t / nsPerDay) mod 12 + 1.
Proof.
  unfold Month; destruct (civil_from_days_month (t / nsPerDay)) as [_ ->]; reflexivity.
Qed.

Lemma Day_index (t : Time) :
  Day t = t / nsPerDay - month_start (month_index (t / nsPerDay)) + 1.
Proof.
  unfold Day; destruct (civil_from_days_month (t / nsPerDay)) as [_ ->]; reflexivity.
Qed.

Lemma Month_range (t : Time) : 1 <= Month t <= 12.
Proof. rewrite Month_index; Z.div_mod_to_equations; lia. Qed.

Lemma index_fields (t : Time) : month_index (t / nsPerDay) = 12 * Year t + (Month t - 1).
Proof. rewrite Year_index, Month_index; Z.div_mod_to_equations; lia. Qed.

Lemma midnight_day (X : Z) : X * nsPerDay / nsPerDay = X.
Proof. unfold nsPerDay, Hour, Second; Z.div_mod_to_equations; lia. Qed.

Lemma before_midnight_day (X : Z) : Add (X * nsPerDay) (- Nanosecond) / nsPerDay = X - 1.
Proof. unfold Add, Nanosecond, nsPerDay, Hour, Second; Z.div_mod_to_equations; lia. Qed.

Lemma before_midnight (t : Time) (X : Z) : t < X * nsPerDay <-> t / nsPerDay < X.
Proof. unfold nsPerDay, Hour, Second; split; intros H; Z.div_mod_to_equations; lia. Qed.

Lemma Date_first (y m : Z) : Date y m 1 0 0 0 0 = month_start (12 * y + (m - 1)) * nsPerDay.
Proof.
  unfold Date; cbv zeta.
  rewrite (days_from_civil_month_start _ _ 1) by (Z.div_mod_to_equations; lia).
  replace (12 * (y + (m - 1) / 12) + ((m - 1) mod 12 + 1 - 1)) with (12 * y + (m - 1))
    by (Z.div_mod_to_equations; lia).
  lia.
Qed.

Lemma Date_next_day (t : Time) :
  Date (Year t) (Month t) (Day t + 1) 0 0 0 0 = (t / nsPerDay + 1) * nsPerDay.
Proof.
  pose proof (Month_range t) as Hm.
  unfold Date; cbv zeta.
  replace (Year t + (Month t - 1) / 12) with (Year t) by (Z.div_mod_to_equations; lia).
  replace ((Month t - 1) mod 12 + 1) with (Month t) by (Z.div_mod_to_equations; lia).
  rewrite days_from_civil_month_start by exact Hm.
  rewrite <- index_fields, Day_index. lia.
Qed.

Lemma same_index_fields (t u : Time) :
  month_index (t / nsPerDay) = month_index (u / nsPerDay) ->
  Year t = Year u /\ Month t = Month u.
Proof. intros H; rewrite !Year_index, !Month_index, H; split; reflexivity. Qed.

(** The last nanosecond before the first of the month after that of [t]
    is in the month of [t]. *)
Lemma end_of_month (t : Time) :
  month_index (Add (month_start (month_index (t / nsPerDay) + 1) * nsPerDay) (- Nanosecond)
               / nsPerDay)
  = month_index (t / nsPerDay).
Proof.
  rewrite before_midnight_day.
  apply month_index_unique.
  pose proof (month_start_step (month_index (t / nsPerDay))). lia.
Qed.

(** The first instant of the year [Y]. *)
Lemma first_of_year_fields (Y : Z) :
  let t := month_start (12 * Y) * nsPerDay in
  Year t = Y /\ Month t = 1 /\ Day t = 1 /\ t mod nsPerDay = 0 /\
  Year (Add t (- Nanosecond)) = Y - 1 /\ Month (Add t (- Nanosecond)) = 12.
Proof.
  cbv zeta.
  assert (month_index (month_start (12 * Y)) = 12 * Y) as Hi.
  { apply month_index_unique. pose proof (month_start_step (12 * Y)). lia. }
  assert (month_index (month_start (12 * Y) - 1) = 12 * Y - 1) as Hj.
  { apply month_index_unique. pose proof (month_start_step (12 * Y - 1)).
    replace (12 * Y - 1 + 1) with (12 * Y) in * by lia. lia. }
  rewrite !Year_index, !Month_index, Day_index, before_midnight_day, midnight_day, Hi, Hj.
  repeat split; try (Z.div_mod_to_equations; lia).
  unfold nsPerDay, Hour, Second; Z.div_mod_to_equations; lia.
Qed.

Lemma Date_first_of_year (Y : Z) :
  Date Y January 1 0 0 0 0 = month_start (12 * Y) * nsPerDay.
Proof. rewrite Date_first; unfold January; f_equal; f_equal; lia. Qed.

Lemma before_next_month (ts : Time) : ts < Date (Year ts) (Month ts + 1) 1 0 0 0 0.
Proof.
  rewrite Date_first.
  replace (12 * Year ts + (Month ts + 1 - 1)) with (month_index (ts / nsPerDay) + 1)
    by (rewrite index_fields; lia).
  apply before_midnight.
  destruct (civil_from_days_month (ts / nsPerDay)) as [H _]; lia.
Qed.

Lemma before_next_day (ts : Time) : ts < Date (Year ts) (Month ts) (Day ts + 1) 0 0 0 0.
Proof. rewrite Date_next_day; apply before_midnight; lia. Qed.

Lemma before_next_year (ts : Time) : ts < Date (Year ts + 1) January 1 0 0 0 0.
Proof.
  rewrite Date_first_of_year.
  apply before_midnight.
  destruct (civil_from_days_month (ts / nsPerDay)) as [H _].
  pose proof (month_start_mono (month_index (ts / nsPerDay) + 1) (12 * (Year ts + 1))) as Hm.
  rewrite index_fields in *. pose proof (Month_range ts). lia.
Qed.

Lemma AddDate_first_of_year (Y : Z) :
  AddDate (month_start (12 * Y) * nsPerDay) 1 0 0 = month_start (12 * (Y + 1)) * nsPerDay.
Proof.
  destruct (first_of_year_fields Y) as (Hy & Hm & Hd & Htod & _).
  unfold AddDate; cbv zeta. rewrite Hy, Hm, Hd, Htod.
  change (1 + 0) with 1. rewrite (Date_first (Y + 1) 1).
  f_equal; f_equal; lia.
Qed.

End Calendar.

(** ** The decomposer in general *)

Section Decomposer.

Import time.
Import server.

Lemma Hour_of_range (t : Time) : 0 <= Hour_of t <= 23.
Proof.
  unfold Hour_of, nsPerDay, Hour, Second.
  Z.div_mod_to_equations. lia.
Qed.

Lemma add_hours_same_day (t : Time) (k : Z) :
  0 <= k -> Hour_of t + k <= 23 ->
  (t + k * Hour) / nsPerDay = t / nsPerDay /\ Hour_of (t + k * Hour) = Hour_of t + k.
Proof.
  unfold Hour_of, nsPerDay, Hour, Second.
  intros Hk Hh.
  Z.div_mod_to_equations. lia.
Qed.

Lemma same_day_fields (t u : Time) :
  t / nsPerDay = u / nsPerDay -> Year t = Year u /\ Month t = Month u /\ Day t = Day u.
Proof. unfold Year, Month, Day; intros ->; repeat split. Qed.

(** The loop of the hour block from [ts], whose hour is [i], for [n]
    rounds that stay within the day of [ts]. *)
Lemma hour_loop (n : nat) :
  forall (i : Z) (ts : Time) (result : list string),
    (n <> O -> i = Hour_of ts) ->
    Hour_of ts + Z.of_nat n <= 24 ->
    for_count n i
      (fun hour '(result, fromTs) =>
         (result ++ [filepath.Join [fmt.Sprintf_0d 4 (Year fromTs);
                                    fmt.Sprintf_0d 2 (Month fromTs);
                                    fmt.Sprintf_0d 2 (Day fromTs);
                                    fmt.Sprintf_0d 2 hour]],
          Add fromTs Hour))
      (result, ts)
    = (result ++ map (fun k => server.hourBucket (ts + Z.of_nat k * Hour)) (seq 0 n),
       ts + Z.of_nat n * Hour).
Proof.
  induction n as [| n IH]; intros i ts result Hi Hn.
  - cbn [for_count seq map]. rewrite app_nil_r. f_equal. lia.
  - cbn [for_count].
    specialize (Hi ltac:(discriminate)).
    unfold Add.
    rewrite (IH (i + 1) (ts + Hour)).
    + rewrite <- app_assoc. f_equal.
      * f_equal. cbn [seq map app]. f_equal.
        -- unfold server.hourBucket. rewrite Z.mul_0_l, Z.add_0_r, Hi. reflexivity.
        -- rewrite <- seq_shift, map_map. apply map_ext. intros k. f_equal. lia.
      * lia.
    + intros Hn0.
      destruct (add_hours_same_day ts 1 ltac:(lia) ltac:(lia)) as [_ Hhour].
      rewrite Z.mul_1_l in Hhour. lia.
    + destruct n as [| n]; [pose proof (Hour_of_range (ts + Hour)); lia |].
      destruct (add_hours_same_day ts 1 ltac:(lia) ltac:(lia)) as [_ Hhour].
      rewrite Z.mul_1_l in Hhour. lia.
Qed.

(** On a range whose first instant and last nanosecond are on the same
    day only the hour block runs. *)
Lemma same_day_call (fuel : nat) (fromTs toTs : Time) :
  Year fromTs = Year (Add toTs (- Nanosecond)) ->
  Month fromTs = Month (Add toTs (- Nanosecond)) ->
  Day fromTs = Day (Add toTs (- Nanosecond)) ->
  server.listTargetDirectories (S fuel) fromTs toTs
  = Ret (if Hour_of fromTs =? Hour_of (Add toTs (- Nanosecond)) then []
         else map (fun k => server.hourBucket (fromTs + Z.of_nat k * Hour))
                (seq 0 (Z.to_nat (Hour_of toTs - Hour_of fromTs)))).
Proof.
  intros Hy Hm Hd.
  apply Z.eqb_eq in Hy, Hm, Hd.
  cbn [server.listTargetDirectories].
  rewrite Hy; cbn [negb mbind outcome_bind mret outcome_ret].
  rewrite Hm; cbn [negb mbind outcome_bind mret outcome_ret].
  rewrite Hd; cbn [negb mbind outcome_bind mret outcome_ret].
  destruct (Hour_of fromTs =? Hour_of (Add toTs (- Nanosecond))); cbn [negb];
    [reflexivity |].
  unfold for_lt.
  pose proof (Hour_of_range fromTs) as Hf.
  pose proof (Hour_of_range toTs) as Ht.
  rewrite hour_loop; [reflexivity | reflexivity | lia].
Qed.

Lemma outcome_bind_ext {A B : Type} (o : outcome A) (k k' : A -> outcome B) :
  (forall a : A, k a = k' a) -> o ≫= k = o ≫= k'.
Proof. intros H; destruct o as [a | |]; [apply H | reflexivity | reflexivity]. Qed.

Lemma listTargetDirectories_blocks (fuel : nat) (fromTs toTs : Time) :
  server.listTargetDirectories (S fuel) fromTs toTs
  = (st ← yearBlock (server.listTargetDirectories fuel) toTs ([], fromTs);
     st ← monthBlock (server.listTargetDirectories fuel) toTs st;
     st ← dayBlock (server.listTargetDirectories fuel) toTs st;
     mret (fst (hourBlock toTs st))).
Proof.
  cbn [server.listTargetDirectories].
  apply outcome_bind_ext; intros [result1 fromTs1].
  apply outcome_bind_ext; intros [result2 fromTs2].
  apply outcome_bind_ext; intros [result3 fromTs3].
  unfold hourBlock.
  destruct (negb _); [| reflexivity].
  destruct (for_lt _ _ _ _); reflexivity.
Qed.

Lemma ends_bind {A B : Type} (o : outcome A) (k : A -> outcome B) :
  ends o -> (forall a, ends (k a)) -> ends (o ≫= k).
Proof.
  unfold ends; intros Ho Hk; destruct o as [a | msg |];
    [apply Hk | discriminate | congruence].
Qed.

Lemma next_day_call (f : nat) (ts : Time) :
  exists r : list string,
    server.listTargetDirectories (S f) ts
      (Date (Year ts) (Month ts) (Day ts + 1) 0 0 0 0) = Ret r.
Proof.
  rewrite Date_next_day.
  destruct (same_day_fields ts (Add ((ts / nsPerDay + 1) * nsPerDay) (- Nanosecond)))
    as (Hy & Hm & Hd).
  { rewrite before_midnight_day; lia. }
  rewrite (same_day_call f _ _ Hy Hm Hd).
  eexists; reflexivity.
Qed.

Lemma dayBlock_returns (f : nat) (toTs : Time) (st : list string * Time) :
  exists st', dayBlock (server.listTargetDirectories (S f)) toTs st = Ret st'.
Proof.
  destruct st as [result ts]; unfold dayBlock.
  destruct (negb _); [| eexists; reflexivity].
  cbv zeta.
  destruct (next_day_call f ts) as [r ->].
  eexists; reflexivity.
Qed.

Lemma same_month_call (f : nat) (fromTs toTs : Time) :
  month_index (fromTs / nsPerDay) = month_index (Add toTs (- Nanosecond) / nsPerDay) ->
  exists r : list string, server.listTargetDirectories (S (S f)) fromTs toTs = Ret r.
Proof.
  intros H; apply same_index_fields in H as [Hy Hm].
  rewrite listTargetDirectories_blocks.
  unfold yearBlock, monthBlock.
  apply Z.eqb_eq in Hy, Hm. rewrite Hy; cbn [negb mbind outcome_bind mret outcome_ret].
  rewrite Hm; cbn [negb mbind outcome_bind mret outcome_ret].
  destruct (dayBlock_returns f toTs ([], fromTs)) as [st' ->].
  eexists; reflexivity.
Qed.

Lemma monthBlock_ends (f : nat) (toTs : Time) (st : list string * Time) :
  ends (monthBlock (server.listTargetDirectories (S (S f))) toTs st).
Proof.
  destruct st as [result ts]; unfold monthBlock.
  destruct (negb _); [| discriminate].
  destruct (Month ts =? December); [discriminate |].
  destruct (Month ts >? Month toTs); [discriminate |].
  cbv zeta.
  destruct (same_month_call f ts (Date (Year ts) (Month ts + 1) 1 0 0 0 0)) as [r ->];
    [| discriminate].
  rewrite Date_first.
  replace (12 * Year ts + (Month ts + 1 - 1)) with (month_index (ts / nsPerDay) + 1)
    by (rewrite index_fields; lia).
  symmetry; apply end_of_month.
Qed.

Lemma same_year_call (f : nat) (fromTs toTs : Time) :
  Year fromTs = Year (Add toTs (- Nanosecond)) ->
  ends (server.listTargetDirectories (S (S (S f))) fromTs toTs).
Proof.
  intros Hy.
  rewrite listTargetDirectories_blocks.
  unfold yearBlock.
  apply Z.eqb_eq in Hy. rewrite Hy; cbn [negb].
  change (mret ([], fromTs) ≫= ?k) with (k ([], fromTs)).
  apply ends_bind; [apply monthBlock_ends | intros st].
  destruct (dayBlock_returns (S f) toTs st) as [st' ->].
  discriminate.
Qed.

Lemma yearBlock_ends (f : nat) (toTs : Time) (st : list string * Time) :
  ends (yearBlock (server.listTargetDirectories (S (S (S f)))) toTs st).
Proof.
  destruct st as [result ts]; unfold yearBlock.
  destruct (negb _); [| discriminate].
  cbv zeta.
  apply ends_bind; [| discriminate].
  apply same_year_call.
  rewrite Date_first, !Year_index, before_midnight_day.
  unfold January.
  replace (12 * (month_index (ts / nsPerDay) / 12 + 1) + (1 - 1))
    with (12 * (month_index (ts / nsPerDay) / 12) + 11 + 1) by lia.
  rewrite (month_index_unique
             (month_start (12 * (month_index (ts / nsPerDay) / 12) + 11 + 1) - 1)
             (12 * (month_index (ts / nsPerDay) / 12) + 11)).
  - Z.div_mod_to_equations; lia.
  - pose proof (month_start_step (12 * (month_index (ts / nsPerDay) / 12) + 11)). lia.
Qed.

(** X5: the recursion of the decomposer is at most four calls deep: on
    any two instants, fuel for four calls is enough for it to return or to
    panic, and more fuel gives the same outcome. *)
Theorem listTargetDirectories_four_deep (fromTs toTs : Time) :
  exists r : outcome (list string),
    r <> OutOfFuel /\
    forall k : nat, server.listTargetDirectories (4 + k) fromTs toTs = r.
Proof.
  assert (ends (server.listTargetDirectories 4 fromTs toTs)) as H4.
  { rewrite listTargetDirectories_blocks.
    apply ends_bind; [apply yearBlock_ends | intros st1].
    apply ends_bind; [apply (monthBlock_ends 1) | intros st2].
    destruct (dayBlock_returns 2 toTs st2) as [st' ->].
    discriminate. }
  exists (server.listTargetDirectories 4 fromTs toTs).
  split; [exact H4 |].
  intros k; apply listTargetDirectories_fuel_add; [reflexivity | exact H4].
Qed.

Lemma new_year_call (k : nat) (fromTs : Time) :
  2 <= Month fromTs <= 11 ->
  server.listTargetDirectories (S k) fromTs (Date (Year fromTs + 1) January 1 0 0 0 0)
  = Panic "fromTs.Month() must not be larger than toTs".
Proof.
  intros Hm.
  rewrite listTargetDirectories_blocks, Date_first_of_year.
  destruct (first_of_year_fields (Year fromTs + 1)) as (Hny & Hnm & _ & _ & Hly & Hlm).
  cbv zeta in *.
  unfold yearBlock.
  rewrite Hly. replace (Year fromTs + 1 - 1) with (Year fromTs) by lia.
  rewrite Z.eqb_refl; cbn [negb].
  change (mret ([], fromTs) ≫= ?k) with (k ([], fromTs)).
  unfold monthBlock.
  rewrite Hlm, Hnm. unfold December.
  assert ((Month fromTs =? 12) = false) as -> by (apply Z.eqb_neq; lia).
  assert ((Month fromTs >? 1) = true) as -> by (apply Z.gtb_lt; lia).
  reflexivity.
Qed.

(** X6: on a range that begins in a month from February to November and
    whose last nanosecond is in another year, the decomposer panics with
    the second check of the month block: the recursive call for the rest of
    the first year ends on the first of January, whose month the check
    reads as smaller than the month of the beginning. *)
Theorem listTargetDirectories_new_year_panics (k : nat) (fromTs toTs : Time) :
  Year fromTs <> Year (Add toTs (- Nanosecond)) ->
  2 <= Month fromTs <= 11 ->
  server.listTargetDirectories (2 + k) fromTs toTs
  = Panic "fromTs.Month() must not be larger than toTs".
Proof.
  intros Hy Hm.
  change (2 + k)%nat with (S (S k)).
  rewrite listTargetDirectories_blocks.
  unfold yearBlock.
  apply Z.eqb_neq in Hy; rewrite Hy; cbn [negb]; cbv zeta.
  rewrite (new_year_call k fromTs Hm).
  reflexivity.
Qed.

Lemma notDecember_bind {A B : Type} (o : outcome A) (k : A -> outcome B) :
  notDecember o -> (forall a, o = Ret a -> notDecember (k a)) -> notDecember (o ≫= k).
Proof.
  unfold notDecember; intros Ho Hk; destruct o as [a | msg |];
    [apply Hk; reflexivity | | discriminate].
  intros E; apply Ho; injection E as ->; reflexivity.
Qed.

Lemma for_count_S {S : Type} (n : nat) (i : Z) (body : Z -> S -> S) (s : S) :
  for_count (Datatypes.S n) i body s = for_count n (i + 1) body (body i s).
Proof. reflexivity. Qed.

(** The loop of the year block keeps [fromTs] on the first instant of a
    year. *)
Lemma year_loop_first_of_year (n : nat) :
  forall (i Y : Z) (result : list string),
    snd (for_count n i
           (fun year '(result, fromTs) =>
              (result ++ [filepath.Join [strconv.Itoa year]], AddDate fromTs 1 0 0))
           (result, month_start (12 * Y) * nsPerDay))
    = month_start (12 * (Y + Z.of_nat n)) * nsPerDay.
Proof.
  induction n as [| n IH]; intros i Y result.
  - cbn [for_count snd]. f_equal; f_equal; lia.
  - rewrite for_count_S.
    rewrite AddDate_first_of_year, IH. f_equal; f_equal; lia.
Qed.

Lemma listTargetDirectories_no_December_panic (fuel : nat) :
  forall fromTs toTs : Time,
    fromTs < toTs ->
    notDecember (server.listTargetDirectories fuel fromTs toTs).
Proof.
  induction fuel as [| fuel IH]; intros fromTs toTs Hlt; [discriminate |].
  rewrite listTargetDirectories_blocks.
  assert (forall st1,
             yearBlock (server.listTargetDirectories fuel) toTs ([], fromTs) = Ret st1 ->
             Month (snd st1) = 12 -> Month (Add toTs (- Nanosecond)) = 12) as Hst1.
  { intros st1 E H12. unfold yearBlock in E.
    destruct (Year fromTs =? Year (Add toTs (- Nanosecond))) eqn:Hy; cbn [negb] in E.
    - injection E as <-; cbn [snd] in H12.
      apply Z.eqb_eq in Hy.
      pose proof (month_index_mono (fromTs / nsPerDay) (Add toTs (- Nanosecond) / nsPerDay))
        as Hmono.
      rewrite !index_fields in Hmono.
      pose proof (Month_range (Add toTs (- Nanosecond))).
      assert (fromTs / nsPerDay <= Add toTs (- Nanosecond) / nsPerDay).
      { unfold Add, Nanosecond, nsPerDay, Hour, Second. Z.div_mod_to_equations. lia. }
      lia.
    - cbv zeta in E.
      destruct (server.listTargetDirectories fuel fromTs _) as [sub | |];
        [| discriminate | discriminate].
      cbn [mbind outcome_bind mret outcome_ret] in E.
      rewrite Date_first_of_year in E. unfold for_lt in E.
      injection E as <-.
      rewrite year_loop_first_of_year in H12.
      match type of H12 with
      | Month (month_start (12 * ?Y') * nsPerDay) = _ =>
          destruct (first_of_year_fields Y') as (_ & Hm & _)
      end.
      cbv zeta in Hm. lia. }
  apply notDecember_bind.
  { unfold yearBlock.
    destruct (negb _); [| discriminate].
    cbv zeta. apply notDecember_bind; [| discriminate].
    apply IH, before_next_year. }
  intros [result1 ts1] E1.
  specialize (Hst1 _ E1); cbn [snd] in Hst1.
  apply notDecember_bind.
  { unfold monthBlock.
    destruct (Month ts1 =? Month (Add toTs (- Nanosecond))) eqn:Hm; cbn [negb];
      [discriminate |].
    destruct (Month ts1 =? December) eqn:Hdec.
    - apply Z.eqb_eq in Hdec; unfold December in Hdec.
      apply Z.eqb_neq in Hm. specialize (Hst1 Hdec). congruence.
    - destruct (Month ts1 >? Month toTs); [discriminate |].
      cbv zeta. apply notDecember_bind; [| discriminate].
      apply IH, before_next_month. }
  intros [result2 ts2] _.
  apply notDecember_bind; [| discriminate].
  unfold dayBlock.
  destruct (negb _); [| discriminate].
  cbv zeta. apply notDecember_bind; [| discriminate].
  apply IH, before_next_day.
Qed.

(** *** What the recursive calls return *)

Lemma for_lt_none {S : Type} (lo hi : Z) (body : Z -> S -> S) (s : S) :
  hi <= lo -> for_lt lo hi body s = s.
Proof.
  intros H; unfold for_lt.
  replace (Z.to_nat (hi - lo)) with 0%nat by lia; reflexivity.
Qed.

Lemma Day_range (t : Time) : 1 <= Day t <= 31.
Proof.
  pose proof (civil_fields (t / nsPerDay)) as H.
  unfold Day. destruct (civil_from_days (t / nsPerDay)) as [[y m] d]. cbn [snd]. lia.
Qed.

(** The first instant of the month of index [N]. *)
Lemma first_of_month_fields (N : Z) :
  month_index (month_start N * nsPerDay / nsPerDay) = N /\
  Day (month_start N * nsPerDay) = 1 /\
  Hour_of (month_start N * nsPerDay) = 0 /\
  month_index (Add (month_start N * nsPerDay) (- Nanosecond) / nsPerDay) = N - 1.
Proof.
  assert (month_index (month_start N) = N) as Hi.
  { apply month_index_unique. pose proof (month_start_step N). lia. }
  assert (month_index (month_start N - 1) = N - 1) as Hj.
  { apply month_index_unique. pose proof (month_start_step (N - 1)).
    replace (N - 1 + 1) with N in * by lia. lia. }
  rewrite Day_index, before_midnight_day, midnight_day, Hi, Hj.
  repeat split; try lia.
  unfold Hour_of, nsPerDay, Hour, Second; Z.div_mod_to_equations; lia.
Qed.

Lemma next_day_fields (t : Time) :
  Hour_of ((t / nsPerDay + 1) * nsPerDay) = 0 /\
  ((t / nsPerDay + 1) * nsPerDay) / nsPerDay = t / nsPerDay + 1.
Proof.
  rewrite midnight_day. split; [| reflexivity].
  unfold Hour_of, nsPerDay, Hour, Second; Z.div_mod_to_equations; lia.
Qed.

Lemma hourBlock_midnight (toTs : Time) (result : list string) (ts : Time) :
  Hour_of toTs = 0 -> fst (hourBlock toTs (result, ts)) = result.
Proof.
  intros H0; unfold hourBlock.
  destruct (negb _); [| reflexivity].
  rewrite for_lt_none; [reflexivity |].
  pose proof (Hour_of_range ts); lia.
Qed.

Lemma next_day_call_nothing (f : nat) (ts : Time) (r : list string) :
  listTargetDirectories f ts (Date (Year ts) (Month ts) (Day ts + 1) 0 0 0 0) = Ret r ->
  r = [].
Proof.
  destruct f as [| f]; [discriminate |].
  rewrite Date_next_day.
  destruct (same_day_fields ts (Add ((ts / nsPerDay + 1) * nsPerDay) (- Nanosecond)))
    as (Hy & Hm & Hd).
  { rewrite before_midnight_day; lia. }
  rewrite (same_day_call f _ _ Hy Hm Hd).
  destruct (next_day_fields ts) as [-> _].
  pose proof (Hour_of_range ts).
  replace (Z.to_nat (0 - Hour_of ts)) with 0%nat by lia.
  destruct (_ =? _); intros E; injection E as <-; reflexivity.
Qed.

Lemma dayBlock_first (f : nat) (toTs : Time) (result : list string) (ts : Time)
  (result' : list string) (ts' : Time) :
  Day toTs = 1 ->
  dayBlock (listTargetDirectories f) toTs (result, ts) = Ret (result', ts') ->
  result' = result.
Proof.
  intros H1; unfold dayBlock.
  destruct (negb _); [| intros E; injection E as <- <-; reflexivity].
  cbv zeta.
  destruct (listTargetDirectories f ts _) as [sub | |] eqn:E; [| discriminate ..].
  pose proof (next_day_call_nothing f ts sub E) as ->; clear E.
  cbn [mbind outcome_bind mret outcome_ret].
  rewrite for_lt_none by (rewrite H1; apply Day_range).
  generalize (Date (Year ts) (Month ts) (Day ts + 1) 0 0 0 0); intros next.
  intros E; injection E as <- <-. apply app_nil_r.
Qed.

Lemma Date_next_month (ts : Time) :
  Date (Year ts) (Month ts + 1) 1 0 0 0 0
  = month_start (month_index (ts / nsPerDay) + 1) * nsPerDay.
Proof.
  rewrite Date_first. f_equal. f_equal. rewrite index_fields. lia.
Qed.

Lemma next_month_call_nothing (f : nat) (ts : Time) (r : list string) :
  listTargetDirectories f ts (Date (Year ts) (Month ts + 1) 1 0 0 0 0) = Ret r ->
  r = [].
Proof.
  destruct f as [| f]; [discriminate |].
  rewrite Date_next_month.
  set (N := month_index (ts / nsPerDay) + 1).
  destruct (first_of_month_fields N) as (_ & Hd & Hh & Hl).
  destruct (same_index_fields ts (Add (month_start N * nsPerDay) (- Nanosecond)))
    as [Hy Hm]; [rewrite Hl; subst N; lia |].
  rewrite listTargetDirectories_blocks.
  unfold yearBlock, monthBlock.
  apply Z.eqb_eq in Hy, Hm.
  rewrite Hy; cbn [negb mbind outcome_bind mret outcome_ret].
  rewrite Hm; cbn [negb mbind outcome_bind mret outcome_ret].
  destruct (dayBlock _ _ _) as [[r1 ts1] | |] eqn:E; [| discriminate ..].
  pose proof (dayBlock_first _ _ _ _ _ _ Hd E) as ->; clear E.
  cbn [mbind outcome_bind mret outcome_ret].
  rewrite hourBlock_midnight by exact Hh.
  intros E; injection E as <-; reflexivity.
Qed.

Lemma monthBlock_first (f : nat) (toTs : Time) (result : list string) (ts : Time)
  (result' : list string) (ts' : Time) :
  Month toTs = 1 ->
  monthBlock (listTargetDirectories f) toTs (result, ts) = Ret (result', ts') ->
  result' = result.
Proof.
  intros H1; unfold monthBlock.
  destruct (negb _); [| intros E; injection E as <- <-; reflexivity].
  destruct (_ =? December); [discriminate |].
  destruct (_ >? _); [discriminate |].
  cbv zeta.
  destruct (listTargetDirectories f ts _) as [sub | |] eqn:E; [| discriminate ..].
  pose proof (next_month_call_nothing f ts sub E) as ->; clear E.
  cbn [mbind outcome_bind mret outcome_ret].
  rewrite for_lt_none by (rewrite H1; apply Month_range).
  generalize (Date (Year ts) (Month ts + 1) 1 0 0 0 0); intros next.
  intros E; injection E as <- <-. apply app_nil_r.
Qed.

Lemma next_year_call_nothing (f : nat) (ts : Time) (r : list string) :
  listTargetDirectories f ts (Date (Year ts + 1) January 1 0 0 0 0) = Ret r ->
  r = [].
Proof.
  destruct f as [| f]; [discriminate |].
  rewrite Date_first_of_year.
  destruct (first_of_year_fields (Year ts + 1)) as (_ & Hm1 & Hd1 & _ & Hly & _).
  cbv zeta in *.
  destruct (first_of_month_fields (12 * (Year ts + 1))) as (_ & _ & Hh & _).
  rewrite listTargetDirectories_blocks.
  unfold yearBlock.
  rewrite Hly. replace (Year ts + 1 - 1) with (Year ts) by lia.
  rewrite Z.eqb_refl; cbn [negb].
  change (mret ([], ts) ≫= ?k) with (k ([], ts)); cbv beta.
  destruct (monthBlock _ _ _) as [[r1 ts1] | |] eqn:E1; [| discriminate ..].
  pose proof (monthBlock_first _ _ _ _ _ _ Hm1 E1) as ->; clear E1.
  cbn [mbind outcome_bind mret outcome_ret].
  destruct (dayBlock _ _ _) as [[r2 ts2] | |] eqn:E2; [| discriminate ..].
  pose proof (dayBlock_first _ _ _ _ _ _ Hd1 E2) as ->; clear E2.
  cbn [mbind outcome_bind mret outcome_ret].
  rewrite hourBlock_midnight by exact Hh.
  intros E; injection E as <-; reflexivity.
Qed.

Lemma next_day_call_empty (k : nat) (ts : Time) :
  listTargetDirectories (S k) ts (Date (Year ts) (Month ts) (Day ts + 1) 0 0 0 0) = Ret [].
Proof.
  destruct (next_day_call k ts) as [r E].
  rewrite E. f_equal. exact (next_day_call_nothing _ _ _ E).
Qed.

Lemma next_month_call_returns (k : nat) (ts : Time) :
  exists r : list string,
    listTargetDirectories (S (S k)) ts (Date (Year ts) (Month ts + 1) 1 0 0 0 0) = Ret r.
Proof.
  apply same_month_call.
  rewrite Date_next_month.
  symmetry; apply end_of_month.
Qed.

Lemma next_month_call_empty (k : nat) (ts : Time) :
  listTargetDirectories (S (S k)) ts (Date (Year ts) (Month ts + 1) 1 0 0 0 0) = Ret [].
Proof.
  destruct (next_month_call_returns k ts) as [r E].
  rewrite E. f_equal. exact (next_month_call_nothing _ _ _ E).
Qed.

Lemma next_year_call_returns (k : nat) (ts : Time) :
  Month ts = 1 \/ Month ts = 12 ->
  exists r : list string,
    listTargetDirectories (S (S (S k))) ts (Date (Year ts + 1) January 1 0 0 0 0) = Ret r.
Proof.
  intros Hmonth.
  rewrite Date_first_of_year.
  destruct (first_of_year_fields (Year ts + 1)) as (_ & Hm1 & _ & _ & Hly & Hlm).
  cbv zeta in *.
  rewrite listTargetDirectories_blocks.
  unfold yearBlock.
  rewrite Hly. replace (Year ts + 1 - 1) with (Year ts) by lia.
  rewrite Z.eqb_refl; cbn [negb].
  change (mret ([], ts) ≫= ?k) with (k ([], ts)); cbv beta.
  assert (exists st, monthBlock (listTargetDirectories (S (S k)))
                       (month_start (12 * (Year ts + 1)) * nsPerDay) ([], ts) = Ret st)
    as [st ->].
  { unfold monthBlock. rewrite Hlm, Hm1. unfold December.
    destruct Hmonth as [H1 | H12].
    - assert ((Month ts =? 12) = false) as -> by (apply Z.eqb_neq; lia).
      assert ((Month ts >? 1) = false) as -> by (rewrite Z.gtb_ltb; apply Z.ltb_ge; lia).
      cbn [negb]; cbv zeta.
      destruct (next_month_call_returns k ts) as [r ->].
      eexists; reflexivity.
    - assert ((Month ts =? 12) = true) as -> by (apply Z.eqb_eq; exact H12).
      cbn [negb]. eexists; reflexivity. }
  cbn [mbind outcome_bind mret outcome_ret].
  destruct (dayBlock_returns (S k) (month_start (12 * (Year ts + 1)) * nsPerDay) st)
    as [st' ->].
  eexists; reflexivity.
Qed.

Lemma next_year_call_outcome (k : nat) (ts : Time) :
  listTargetDirectories (S (S (S k))) ts (Date (Year ts + 1) January 1 0 0 0 0)
  = if (2 <=? Month ts) && (Month ts <=? 11)
    then Panic "fromTs.Month() must not be larger than toTs"
    else Ret [].
Proof.
  pose proof (Month_range ts) as Hrange.
  destruct ((2 <=? Month ts) && (Month ts <=? 11)) eqn:Hmid.
  - apply andb_true_iff in Hmid as [H2 H11].
    apply Z.leb_le in H2, H11.
    apply new_year_call; lia.
  - assert (Month ts = 1 \/ Month ts = 12) as Hedge.
    { apply andb_false_iff in Hmid as [H | H]; apply Z.leb_gt in H; lia. }
    destruct (next_year_call_returns k ts Hedge) as [r E].
    rewrite E. f_equal. exact (next_year_call_nothing _ _ _ E).
Qed.

(** *** Ranges within one month *)

Lemma AddDate_day (t : Time) : AddDate t 0 0 1 = t + nsPerDay.
Proof.
  pose proof (Month_range t) as Hm.
  unfold AddDate, Date; cbv zeta.
  replace (Year t + 0 + (Month t + 0 - 1) / 12) with (Year t)
    by (Z.div_mod_to_equations; lia).
  replace ((Month t + 0 - 1) mod 12 + 1) with (Month t) by (Z.div_mod_to_equations; lia).
  rewrite days_from_civil_month_start by exact Hm.
  rewrite <- index_fields, Day_index.
  unfold nsPerDay, Hour, Second. Z.div_mod_to_equations. lia.
Qed.

Lemma same_month_between (a b c : Z) :
  a <= b <= c -> month_index a = month_index c -> month_index b = month_index a.
Proof.
  intros [Hab Hbc] Hac.
  pose proof (month_index_mono a b Hab). pose proof (month_index_mono b c Hbc). lia.
Qed.

Lemma add_days (t : Time) (k : Z) :
  (t + k * nsPerDay) / nsPerDay = t / nsPerDay + k /\
  Hour_of (t + k * nsPerDay) = Hour_of t.
Proof.
  unfold Hour_of, nsPerDay, Hour, Second. split; Z.div_mod_to_equations; lia.
Qed.

(** The loop of the day block from [ts], whose day is [i], for [n] rounds
    that stay within the month of [ts]. *)
Lemma day_loop (n : nat) :
  forall (i : Z) (ts : Time) (result : list string),
    (n <> O -> i = Day ts) ->
    (n <> O ->
     month_index (ts / nsPerDay + Z.of_nat n - 1) = month_index (ts / nsPerDay)) ->
    for_count n i
      (fun day '(result, fromTs) =>
         (result ++ [filepath.Join [fmt.Sprintf_0d 4 (Year fromTs);
                                    fmt.Sprintf_0d 2 (Month fromTs);
                                    fmt.Sprintf_0d 2 day]],
          AddDate fromTs 0 0 1))
      (result, ts)
    = (result ++ map (fun k => dayBucket (ts + Z.of_nat k * nsPerDay)) (seq 0 n),
       ts + Z.of_nat n * nsPerDay).
Proof.
  induction n as [| n IH]; intros i ts result Hi Hn.
  - cbn [for_count seq map]. rewrite app_nil_r. f_equal. lia.
  - rewrite for_count_S.
    specialize (Hi ltac:(discriminate)). specialize (Hn ltac:(discriminate)).
    rewrite AddDate_day.
    destruct (add_days ts 1) as [Hday _]. rewrite Z.mul_1_l in Hday.
    rewrite (IH (i + 1) (ts + nsPerDay)).
    + rewrite <- app_assoc. f_equal.
      * f_equal. cbn [seq map app]. f_equal.
        -- unfold dayBucket. rewrite Z.mul_0_l, Z.add_0_r, Hi. reflexivity.
        -- rewrite <- seq_shift, map_map. apply map_ext. intros k. f_equal. lia.
      * lia.
    + intros Hn0. rewrite Hi, !Day_index, Hday.
      rewrite (same_month_between (ts / nsPerDay) (ts / nsPerDay + 1)
                 (ts / nsPerDay + Z.of_nat (S n) - 1)); [lia | lia | symmetry; exact Hn].
    + intros Hn0. rewrite Hday.
      rewrite (same_month_between (ts / nsPerDay) (ts / nsPerDay + 1)
                 (ts / nsPerDay + Z.of_nat (S n) - 1)); [| lia | symmetry; exact Hn].
      replace (ts / nsPerDay + 1 + Z.of_nat n - 1) with (ts / nsPerDay + Z.of_nat (S n) - 1)
        by lia.
      exact Hn.
Qed.

Lemma same_month_call_lists (k : nat) (fromTs toTs : Time) :
  fromTs < toTs ->
  Year fromTs = Year (Add toTs (- Nanosecond)) ->
  Month fromTs = Month (Add toTs (- Nanosecond)) ->
  Day fromTs <> Day (Add toTs (- Nanosecond)) ->
  let next := (fromTs / nsPerDay + 1) * nsPerDay in
  let n := Z.to_nat (Day toTs - (Day fromTs + 1)) in
  listTargetDirectories (S (S k)) fromTs toTs
  = Ret (map (fun j => dayBucket (next + Z.of_nat j * nsPerDay)) (seq 0 n)
         ++ (if Hour_of (Add toTs (- Nanosecond)) =? 0 then []
             else map (fun h => hourBucket (next + Z.of_nat n * nsPerDay + Z.of_nat h * Hour))
                    (seq 0 (Z.to_nat (Hour_of toTs))))).
Proof.
  intros Hlt Hy Hm Hd; cbv zeta.
  rewrite listTargetDirectories_blocks.
  unfold yearBlock, monthBlock.
  pose proof Hy as Hy'; pose proof Hm as Hm'.
  apply Z.eqb_eq in Hy', Hm'.
  rewrite Hy'; cbn [negb mbind outcome_bind mret outcome_ret].
  rewrite Hm'; cbn [negb mbind outcome_bind mret outcome_ret].
  unfold dayBlock.
  apply Z.eqb_neq in Hd as Hd'. rewrite Hd'; cbn [negb]; cbv zeta.
  destruct (next_day_call k fromTs) as [sub E].
  rewrite E.
  pose proof (next_day_call_nothing _ _ _ E) as ->; clear E.
  cbn [mbind outcome_bind mret outcome_ret app].
  rewrite Date_next_day.
  set (next := (fromTs / nsPerDay + 1) * nsPerDay).
  (* the days of the range *)
  set (Df := fromTs / nsPerDay) in *.
  set (Dl := Add toTs (- Nanosecond) / nsPerDay).
  assert (month_index Df = month_index Dl) as Hidx.
  { subst Df Dl. rewrite !index_fields, Hy, Hm. reflexivity. }
  assert (Df < Dl) as Hdays.
  { assert (Df <= Dl)
      by (subst Df Dl; unfold Add, Nanosecond, nsPerDay, Hour, Second;
          Z.div_mod_to_equations; lia).
    assert (Df <> Dl); [| lia].
    intros Heq. apply Hd. rewrite !Day_index. fold Df Dl. rewrite Heq. reflexivity. }
  assert (next / nsPerDay = Df + 1) as Hnext by (subst next; apply midnight_day).
  assert (month_index (Df + 1) = month_index Df) as Hidx1
    by (apply (same_month_between Df (Df + 1) Dl); [lia | exact Hidx]).
  assert (Day next = Day fromTs + 1) as Hdaynext.
  { rewrite !Day_index, Hnext. fold Df. rewrite Hidx1. lia. }
  assert (toTs / nsPerDay = Dl \/ toTs / nsPerDay = Dl + 1) as Hto
    by (subst Dl; unfold Add, Nanosecond, nsPerDay, Hour, Second;
        Z.div_mod_to_equations; lia).
  unfold for_lt at 1.
  rewrite Hdaynext.
  set (n := Z.to_nat (Day toTs - (Day fromTs + 1))).
  rewrite (day_loop n (Day fromTs + 1) next []).
  2: { intros _. symmetry. exact Hdaynext. }
  2: { intros Hn0. rewrite Hnext, Hidx1.
       assert (0 < Day toTs - (Day fromTs + 1)) as Hpos by (subst n; lia).
       assert (Z.of_nat n = Day toTs - (Day fromTs + 1)) as -> by (subst n; lia).
       assert (Day fromTs = Df - month_start (month_index Df) + 1) as HDf
         by (subst Df; apply Day_index).
       pose proof (Day_index toTs) as HDt.
       destruct Hto as [Hto | Hto]; rewrite Hto in HDt.
       - rewrite <- Hidx in HDt.
         apply (same_month_between Df _ Dl); [lia | exact Hidx].
       - destruct (Z.eq_dec (month_index (Dl + 1)) (month_index Dl)) as [Hsame | Hnew].
         + rewrite Hsame, <- Hidx in HDt.
           apply (same_month_between Df _ Dl); [lia | exact Hidx].
         + exfalso.
           destruct (civil_from_days_month (Dl + 1)) as [[Hlo _] _].
           destruct (civil_from_days_month Dl) as [[_ Hhi] _].
           pose proof (month_index_mono Dl (Dl + 1) ltac:(lia)) as Hmono.
           pose proof (month_start_mono (month_index Dl + 1) (month_index (Dl + 1))
                         ltac:(lia)) as Hms.
           pose proof (Day_range fromTs).
           lia. }
  cbn [app].
  (* the hours of the last day *)
  cbn [mbind outcome_bind mret outcome_ret].
  unfold hourBlock.
  destruct (add_days next (Z.of_nat n)) as [_ Hhour].
  destruct (next_day_fields fromTs) as [Hh0 _]. fold Df next in Hh0.
  rewrite Hhour, Hh0.
  rewrite (Z.eqb_sym 0).
  destruct (Hour_of (Add toTs (- Nanosecond)) =? 0); cbn [negb fst].
  - rewrite app_nil_r; reflexivity.
  - unfold for_lt. rewrite Z.sub_0_r.
    rewrite hour_loop; [reflexivity | | ].
    + intros _. rewrite Hhour, Hh0; reflexivity.
    + rewrite Hhour, Hh0. pose proof (Hour_of_range toTs). lia.
Qed.

(** X4: on a range whose first instant and last nanosecond are on the
    same day, the decomposer returns, with any fuel, the hour buckets from
    the hour of [fromTs] up to, and without, the hour of [toTs], and
    nothing when the first instant and the last nanosecond are in the same
    hour. *)
Theorem listTargetDirectories_same_day (fuel : nat) (fromTs toTs : Time) :
  Year fromTs = Year (Add toTs (- Nanosecond)) ->
  Month fromTs = Month (Add toTs (- Nanosecond)) ->
  Day fromTs = Day (Add toTs (- Nanosecond)) ->
  listTargetDirectories (S fuel) fromTs toTs
  = Ret (if Hour_of fromTs =? Hour_of (Add toTs (- Nanosecond)) then []
         else map (fun k => hourBucket (fromTs + Z.of_nat k * Hour))
                (seq 0 (Z.to_nat (Hour_of toTs - Hour_of fromTs)))).
Proof. apply same_day_call. Qed.

(** X7: on a range with [fromTs] before [toTs] the check for December
    never fires, with any fuel: when the month block is reached in
    December, the last nanosecond of the range is in December too. *)
Theorem listTargetDirectories_December_check_dead (fuel : nat) (fromTs toTs : Time) :
  fromTs < toTs ->
  listTargetDirectories fuel fromTs toTs
  <> Panic "fromTs.Month() must not be Descember".
Proof. apply listTargetDirectories_no_December_panic. Qed.

(** X15: the recursive calls of the decomposer, for the time from
    [fromTs] to the end of its day, of its month and of its year, return
    the empty list, given fuel for one, two and three calls: nothing is
    listed for the time before the first boundary of a range; the call to
    the end of the year panics instead when the month of [fromTs] is one
    from February to November. *)
Theorem listTargetDirectories_head_dropped (k : nat) (fromTs : Time) :
  listTargetDirectories (1 + k) fromTs
    (Date (Year fromTs) (Month fromTs) (Day fromTs + 1) 0 0 0 0) = Ret [] /\
  listTargetDirectories (2 + k) fromTs
    (Date (Year fromTs) (Month fromTs + 1) 1 0 0 0 0) = Ret [] /\
  listTargetDirectories (3 + k) fromTs
    (Date (Year fromTs + 1) January 1 0 0 0 0)
  = (if (2 <=? Month fromTs) && (Month fromTs <=? 11)
     then Panic "fromTs.Month() must not be larger than toTs"
     else Ret []).
Proof.
  split; [apply next_day_call_empty |].
  split; [apply next_month_call_empty | apply next_year_call_outcome].
Qed.

(** X16: on a range with [fromTs] before [toTs] whose first instant and
    last nanosecond are in the same month, on different days, the
    decomposer returns the day buckets of the days after that of [fromTs]
    and before that of [toTs], and then the hour buckets of the day of
    [toTs] before the hour of [toTs]: nothing is returned for the day of
    [fromTs], nor for the hour in which the range ends. *)
Theorem listTargetDirectories_same_month (k : nat) (fromTs toTs : Time) :
  fromTs < toTs ->
  Year fromTs = Year (Add toTs (- Nanosecond)) ->
  Month fromTs = Month (Add toTs (- Nanosecond)) ->
  Day fromTs <> Day (Add toTs (- Nanosecond)) ->
  let next := (fromTs / nsPerDay + 1) * nsPerDay in
  let n := Z.to_nat (Day toTs - (Day fromTs + 1)) in
  listTargetDirectories (S (S k)) fromTs toTs
  = Ret (map (fun j => dayBucket (next + Z.of_nat j * nsPerDay)) (seq 0 n)
         ++ (if Hour_of (Add toTs (- Nanosecond)) =? 0 then []
             else map (fun h => hourBucket (next + Z.of_nat n * nsPerDay + Z.of_nat h * Hour))
                    (seq 0 (Z.to_nat (Hour_of toTs))))).
Proof. apply same_month_call_lists. Qed.

End Decomposer.

(** ** The [/list] endpoint: what the walks collect *)

Section Walk.

Import server.

Context {env : ServerEnv}.

Lemma walkDir_collect (directory : string) :
  forall (d : node) (path : string) (s : list string),
    walkDir (collect directory) path d s = (s ++ regularFiles directory path d, None).
Proof.
  fix IH 1.
  intros d path s.
  destruct d as [| | entries readErr]; cbn [walkDir collect IsRegular regularFiles].
  - destruct (Rel directory path); [rewrite app_nil_r |]; reflexivity.
  - rewrite app_nil_r; reflexivity.
  - assert ((match readErr with
             | Some _ => (s, None)
             | None => (s, None)
             end : list string * option error) = (s, None)) as -> by (destruct readErr; reflexivity).
    revert s.
    induction entries as [| [name d1] rest IHrest]; intros s.
    + cbn [flat_map]; rewrite app_nil_r; reflexivity.
    + rewrite (IH d1 (filepath.Join [path; name]) s).
      rewrite IHrest. cbn [flat_map fst snd]. rewrite app_assoc. reflexivity.
Qed.

Lemma WalkDir_collect (directory d : string) (s : list string) :
  fst (WalkDir (filepath.Join [directory; d]) (collect directory) s)
  = s ++ filesUnder directory d.
Proof.
  unfold WalkDir, filesUnder.
  destruct (Lstat (filepath.Join [directory; d])) as [err | info].
  - cbn [collect fst]. rewrite app_nil_r; reflexivity.
  - rewrite walkDir_collect. reflexivity.
Qed.

Lemma collected_from (directory : string) (dirs : list string) :
  forall s : list string,
    fold_left
      (fun result d => fst (WalkDir (filepath.Join [directory; d]) (collect directory) result))
      dirs s
    = s ++ flat_map (filesUnder directory) dirs.
Proof.
  induction dirs as [| d dirs IH]; intros s; cbn [fold_left flat_map].
  - rewrite app_nil_r; reflexivity.
  - rewrite IH, WalkDir_collect, app_assoc; reflexivity.
Qed.

(** X8: the paths a request collects are, for each candidate directory
    in turn, the regular files at any depth below it, in the order of the
    walk, each relative to the root directory: a candidate that cannot be
    stat'ed gives none, entries that are not regular files are not listed,
    and the entries read before an error of [ReadDir] are. *)
Theorem collected_regular_files (directory : string) (dirs : list string) :
  collected directory dirs = flat_map (filesUnder directory) dirs.
Proof. unfold collected; rewrite collected_from; reflexivity. Qed.

End Walk.

(** ** The event consumer: the files that are there *)

Ltac ret_inv E :=
  unfold mret, consumer.M_ret in E; injection E; clear E; intros; subst.

Section Keeps.

Import consumer.

Context {env : ConsumerEnv}.

Lemma keeps_ret {A : Type} (a : A) : keeps (mret a : M A).
Proof. intros w a' w' E; injection E as <- <-; auto. Qed.

Lemma keeps_bind {A B : Type} (m : M A) (k : A -> M B) :
  keeps m -> (forall a, keeps (k a)) -> keeps (m ≫= k).
Proof.
  intros Hm Hk w b w' E q v Hq.
  apply bind_Ret in E as (a & w1 & E1 & E2).
  eapply Hk; [exact E2 |]. eapply Hm; [exact E1 | exact Hq].
Qed.

Lemma keeps_emit (e : effect) : keeps (emit e).
Proof. intros w a w' E q v Hq; injection E as _ <-; exact Hq. Qed.

Lemma keeps_MkdirAll (path : string) : keeps (MkdirAll path).
Proof.
  intros w a w' E q v Hq; unfold MkdirAll in E.
  destruct (mkdirAll _ path (fs w)) as [err | f'] eqn:Em; injection E as <- <-.
  - exact Hq.
  - cbn [fs set_fs]; eapply mkdirAll_preserves; eassumption.
Qed.




Lemma keeps_probe (p : NestDoorbellEventProcessor) (fileNameFormat sessionId ext : string)
  (fuel : nat) (i : Z) :
  keeps (probe fuel p fileNameFormat sessionId ext i).
Proof.
  intros w a w' E q v Hq.
  apply probe_returns in E as (_ & _ & _ & _ & _ & -> & _); exact Hq.
Qed.

(** The downloader writes under a name that was free, so it keeps every
    entry, whatever it returns. *)
Lemma keeps_download (p : NestDoorbellEventProcessor) (fuel : nat)
  (clip : ResourceUpdateEventCameraClipPreview) :
  keeps (downloadAndSaveCameraClipPreview p fuel clip).
Proof.
  intros w r w' E q v Hq.
  unfold downloadAndSaveCameraClipPreview in E.
  apply bind_Ret in E as ([] & wa & Ea & E).
  injection Ea as <-.
  destruct (client_Get (PreviewUrl clip)) as [err | resp]; [ret_inv E; exact Hq |].
  apply bind_Ret in E as (extensions & wb & Eb & E).
  apply extension_step in Eb as (_ & Hfsb & _).
  cbn [fs] in Hfsb.
  apply bind_Ret in E as (now & wb' & Eclock & E).
  injection Eclock as <- <-.
  apply bind_Ret in E as (fileName & wp & Ep & E).
  apply probe_returns in Ep as (_ & _ & _ & _ & Hfree & Hfsp & _).
  assert (q <> fileName) as Hne.
  { intros ->. unfold present in Hfree. rewrite Hfsb, Hq, !orb_true_r in Hfree.
    discriminate. }
  assert (fs wp !! q = Some v) as Hqp by (rewrite Hfsp, Hfsb; exact Hq).
  clear Hq Hfsp Hfsb Hfree.
  apply bind_Ret in E as (notExist & wp' & Estat & E).
  injection Estat as <- <-.
  apply bind_Ret in E as (err1 & wc & Ec & E).
  assert (fs wc !! q = Some v) as Hqc.
  { destruct (negb (present (fs wp) (filepath.Dir fileName))).
    - exact (keeps_MkdirAll _ _ _ _ Ec q v Hqp).
    - ret_inv Ec; exact Hqp. }
  destruct err1 as [err1 |]; [ret_inv E; exact Hqc |].
  apply bind_Ret in E as (err2 & wd & Ed & E).
  assert (fs wd !! q = Some v) as Hqd.
  { unfold Create in Ed.
    destruct (create fileName (fs wc)) as [err | f'] eqn:Ecr;
      cbv beta iota delta [mbind M_bind emit mret M_ret] in Ed; injection Ed as <- <-;
      [exact Hqc |].
    cbn [fs set_fs]. unfold create in Ecr.
    destruct (negb (isDirectory (fs wc) (filepath.Dir fileName)));
      [destruct (present (fs wc) (filepath.Dir fileName)); discriminate |].
    destruct (isDirectory (fs wc) fileName); [discriminate |].
    injection Ecr as <-. rewrite lookup_insert_ne by congruence. exact Hqc. }
  destruct err2 as [err2 |]; [ret_inv E; exact Hqd |].
  apply bind_Ret in E as ([numWritten err3] & we & Ee & E).
  injection Ee as _ _ <-.
  assert (fs (set_fs (<[fileName := FFile (Body_data resp)]> (fs wd)) wd) !! q = Some v)
    as Hqe by (cbn [fs set_fs]; rewrite lookup_insert_ne by congruence; exact Hqd).
  destruct err3 as [err3 |]; [ret_inv E; exact Hqe |].
  apply bind_Ret in E as ([] & wf & Ef & E).
  injection Ef as <-. ret_inv E. exact Hqe.
Qed.

Lemma keeps_after_log (p : NestDoorbellEventProcessor) (fuel : nat)
  (format : string) (args : list value)
  (clipPreview : option ResourceUpdateEventCameraClipPreview) :
  keeps
    (emit (ELog format args);;
     match clipPreview with
     | Some clipPreview =>
         err ← downloadAndSaveCameraClipPreview p fuel clipPreview;
         match err with
         | Some err => mret (Some err)
         | None => mret None
         end
     | None => mret None
     end).
Proof.
  apply keeps_bind; [apply keeps_emit | intros _].
  destruct clipPreview as [cp |]; [| apply keeps_ret].
  apply keeps_bind; [apply keeps_download |].
  intros [err |]; apply keeps_ret.
Qed.

Lemma keeps_Process (p : NestDoorbellEventProcessor) (fuel : nat) (event : DeviceEvent) :
  keeps (Process p fuel event).
Proof.
  unfold Process, processResourceUpdateEvent.
  destruct (resourceUpdate event) as [ru |].
  - destruct (Events ru !! ResourceUpdateEventTypeDoorbellChime) as [raw |].
    { destruct (Unmarshal_DoorbellChime raw); [apply keeps_ret | apply keeps_after_log]. }
    destruct (Events ru !! ResourceUpdateEventTypeCameraMotion) as [raw |].
    { destruct (Unmarshal_CameraMotion raw); [apply keeps_ret | apply keeps_after_log]. }
    destruct (Events ru !! ResourceUpdateEventTypeCameraPerson) as [raw |].
    { destruct (Unmarshal_CameraPerson raw); [apply keeps_ret | apply keeps_after_log]. }
    apply keeps_ret.
  - destruct (relationUpdate event).
    + apply keeps_bind; [apply keeps_emit | intros _; apply keeps_ret].
    + apply keeps_ret.
Qed.

(** X10: a run of the callback that returns has kept every entry of the
    filesystem, with its content: a clip is never written over a file or a
    directory that is there, and nothing is removed. *)
Theorem receive_keeps_files (processor : NestDoorbellEventProcessor) (fuel : nat)
  (m : Message) (w w' : World) :
  receive processor fuel m w = Ret (tt, w') ->
  forall (q : string) (v : fnode), fs w !! q = Some v -> fs w' !! q = Some v.
Proof.
  assert (keeps (receive processor fuel m)) as Hkeeps.
  { unfold receive, defer.
    apply keeps_bind.
    - destruct (Unmarshal_DeviceEvent (Data m)) as [err | event]; [apply keeps_emit |].
      apply keeps_bind; [apply keeps_Process |].
      intros [err |]; [apply keeps_emit | apply keeps_ret].
    - intros a. apply keeps_bind; [apply keeps_emit | intros _; apply keeps_ret]. }
  exact (Hkeeps w tt w').
Qed.

End Keeps.

(** ** The clip downloader: the name and the file *)

Section Downloader.

Import consumer.

Context {env : ConsumerEnv}.

Lemma replace_from_absent (s old new : string) :
  gostrings.Contains s old = false -> gostrings.replace_from 0 s old new = s.
Proof.
  induction s as [| c s IH]; intros H; [reflexivity |].
  cbn [gostrings.Contains] in H; apply orb_false_iff in H as [H1 H2].
  cbn [gostrings.replace_from]; rewrite H1, (IH H2); reflexivity.
Qed.

(** Without the placeholder in the resolved format every counter gives
    the same name. *)
Lemma candidate_fixed (p : NestDoorbellEventProcessor)
  (fileNameFormat sessionId ext : string) (i j : Z) :
  gostrings.Contains fileNameFormat "{eventSessionId}" = false ->
  candidate p fileNameFormat sessionId ext i = candidate p fileNameFormat sessionId ext j.
Proof.
  intros H; unfold candidate, gostrings.ReplaceAll.
  rewrite !(replace_from_absent _ _ _ H); reflexivity.
Qed.

Lemma probe_never_returns (p : NestDoorbellEventProcessor)
  (fileNameFormat sessionId ext : string) (fuel : nat) :
  gostrings.Contains fileNameFormat "{eventSessionId}" = false ->
  forall (i : Z) (w : World),
    present (fs w) (candidate p fileNameFormat sessionId ext 0) = true ->
    probe fuel p fileNameFormat sessionId ext i w = OutOfFuel.
Proof.
  intros H; induction fuel as [| fuel IH]; intros i w Hp; [reflexivity |].
  cbn [probe]; unfold mbind, M_bind, Stat_IsNotExist.
  rewrite (candidate_fixed p fileNameFormat sessionId ext i 0 H), Hp; cbn [negb].
  unfold emit. apply IH. exact Hp.
Qed.

(** X11: when the name format, once the time is filled in, has no
    [{eventSessionId}] and the name it gives is taken, the loop that looks
    for an unused name never ends: the download runs out of any fuel. *)
Theorem download_never_returns (p : NestDoorbellEventProcessor) (fuel : nat)
  (clip : ResourceUpdateEventCameraClipPreview) (resp : HttpResponse) (w : World) :
  client_Get (PreviewUrl clip) = inr resp ->
  gostrings.Contains (Format (clock w) (outputFileNameFormat p)) "{eventSessionId}" = false ->
  present (fs w) (clipName p clip resp (clock w) 0) = true ->
  downloadAndSaveCameraClipPreview p fuel clip w = OutOfFuel.
Proof.
  intros Hget Hocc Hp.
  unfold downloadAndSaveCameraClipPreview.
  unfold mbind at 1, M_bind at 1, emit. rewrite Hget.
  unfold mbind at 1, M_bind at 1.
  match goal with
  | |- context [match ?m ?w0 with Ret _ => _ | Panic _ => _ | OutOfFuel => _ end] =>
      destruct (m w0) as [[extensions wb] | msg |] eqn:Eb
  end; [| destruct (ExtensionsByType (Header_ContentType resp)) as [? | [| ? ?]];
          discriminate | reflexivity].
  apply extension_step in Eb as (Hext & Hfsb & Hclockb & _).
  cbn [fs clock] in Hfsb, Hclockb.
  unfold mbind at 1, M_bind at 1, get_clock.
  unfold mbind at 1, M_bind at 1.
  rewrite Hext, Hclockb, probe_never_returns; [reflexivity | exact Hocc |].
  rewrite Hfsb. exact Hp.
Qed.

Lemma isDirectory_present (f : gmap string fnode) (name : string) :
  isDirectory f name = true -> present f name = true.
Proof.
  unfold isDirectory, present.
  destruct (String.eqb name "."), (String.eqb name "/"); try reflexivity.
  destruct (f !! name) as [[|] |]; (reflexivity || discriminate).
Qed.

Lemma absent_not_directory (f : gmap string fnode) (name : string) :
  present f name = false -> isDirectory f name = false.
Proof.
  intros H; destruct (isDirectory f name) eqn:E; [| reflexivity].
  apply isDirectory_present in E; congruence.
Qed.

(** X12: when the GET is answered, the name of counter 0 is unused and
    its directory is there, the download creates that file and no other,
    with the bytes of the body that could be read, and returns the error
    that ended the reading, if any: a body that breaks off leaves a partial
    file. *)
Theorem download_into_directory (p : NestDoorbellEventProcessor) (fuel : nat)
  (clip : ResourceUpdateEventCameraClipPreview) (resp : HttpResponse) (w : World) :
  let name := clipName p clip resp (clock w) 0 in
  client_Get (PreviewUrl clip) = inr resp ->
  present (fs w) name = false ->
  isDirectory (fs w) (filepath.Dir name) = true ->
  exists (w' : World) (new : list effect),
    downloadAndSaveCameraClipPreview p (S fuel) clip w = Ret (Body_err resp, w') /\
    fs w' = <[name := FFile (Body_data resp)]> (fs w) /\
    effects w' = effects w ++ new /\
    created new = [name].
Proof.
  cbv zeta; intros Hget Hfree Hdir.
  pose proof (isDirectory_present _ _ Hdir) as Hpdir.
  pose proof (absent_not_directory _ _ Hfree) as Hnd.
  unfold clipName, extensionOf in *.
  unfold downloadAndSaveCameraClipPreview.
  unfold mbind, M_bind, emit, get_clock, Stat_IsNotExist, Create, create, Copy.
  rewrite Hget.
  destruct (ExtensionsByType (Header_ContentType resp)) as [err | [| e es]];
    cbn [probe hd]; unfold mbind, M_bind, Stat_IsNotExist, emit, mret, M_ret;
    cbn [fs clock effects hd set_fs];
    rewrite Hfree; cbn [negb fs clock effects set_fs];
    rewrite Hpdir; cbn [negb fs clock effects set_fs];
    rewrite Hdir, Hnd; cbn [negb fs clock effects set_fs];
    rewrite insert_insert_eq;
    (destruct (Body_err resp);
     eexists _, _; (split; [reflexivity |]); (split; [reflexivity |]);
     cbn [effects set_fs fs clock]; rewrite <- ?app_assoc; (split; [reflexivity |]); reflexivity).
Qed.

End Downloader.

(** ** The event dispatcher: clip previews and devices *)

Section Dispatch.

Import consumer.

Context {env : ConsumerEnv}.

Lemma handler_without_clip (format : string) (args : list value)
  (p : NestDoorbellEventProcessor) (fuel : nat) (w : World) :
  (emit (ELog format args);;
   match @None ResourceUpdateEventCameraClipPreview with
   | Some clipPreview =>
       err ← downloadAndSaveCameraClipPreview p fuel clipPreview;
       match err with
       | Some err => mret (Some err)
       | None => mret None
       end
   | None => mret None
   end) w
  = Ret (None, {| fs := fs w; clock := clock w;
                  effects := effects w ++ [ELog format args] |}).
Proof. reflexivity. Qed.

(** X13: a clip preview whose payload does not decode is passed over:
    the run of [Process] returns with any fuel, makes no request and leaves
    the filesystem as it was; it writes at most the line of one handler,
    which shows the clip preview as nil, and then returns no error. *)
Theorem broken_clip_preview_only_logged (p : NestDoorbellEventProcessor) (fuel : nat)
  (event : DeviceEvent) (ru : ResourceUpdate) (raw : RawMessage) (err : error)
  (w : World) :
  resourceUpdate event = Some ru ->
  Events ru !! ResourceUpdateEventTypeCameraClipPreview = Some raw ->
  Unmarshal_CameraClipPreview raw = inl err ->
  exists (r : option error) (w' : World),
    Process p fuel event w = Ret (r, w') /\
    fs w' = fs w /\
    (effects w' = effects w \/
     r = None /\
     exists (format : string) (text : string),
       effects w' = effects w ++ [ELog format [VStr text; VStr "CameraClipPreview(nil)"]]).
Proof.
  intros Hru Hraw Herr.
  assert (clipPreviewOf ru = None) as Hclip
    by (unfold clipPreviewOf; rewrite Hraw, Herr; reflexivity).
  unfold Process, processResourceUpdateEvent; rewrite Hru.
  unfold processChimeEvent, processMotionEvent, processPersonEvent; rewrite Hclip.
  destruct (Events ru !! ResourceUpdateEventTypeDoorbellChime) as [rawc |].
  { destruct (Unmarshal_DoorbellChime rawc) as [e | chime].
    - eexists _, _; split; [reflexivity |]; split; [reflexivity | left; reflexivity].
    - eexists _, _; split; [reflexivity |]; split; [reflexivity |].
      right; split; [reflexivity |]. eexists _, _; reflexivity. }
  destruct (Events ru !! ResourceUpdateEventTypeCameraMotion) as [rawm |].
  { destruct (Unmarshal_CameraMotion rawm) as [e | motion].
    - eexists _, _; split; [reflexivity |]; split; [reflexivity | left; reflexivity].
    - eexists _, _; split; [reflexivity |]; split; [reflexivity |].
      right; split; [reflexivity |]. eexists _, _; reflexivity. }
  destruct (Events ru !! ResourceUpdateEventTypeCameraPerson) as [rawp |].
  { destruct (Unmarshal_CameraPerson rawp) as [e | person].
    - eexists _, _; split; [reflexivity |]; split; [reflexivity | left; reflexivity].
    - eexists _, _; split; [reflexivity |]; split; [reflexivity |].
      right; split; [reflexivity |]. eexists _, _; reflexivity. }
  eexists _, _; split; [reflexivity |]; split; [reflexivity | left; reflexivity].
Qed.

(** The loop reads of the processor only the output directory. *)
Lemma probe_same_directory (p p' : NestDoorbellEventProcessor)
  (fileNameFormat sessionId ext : string) (fuel : nat) :
  outputDir p = outputDir p' ->
  forall (i : Z) (w : World),
    probe fuel p fileNameFormat sessionId ext i w
    = probe fuel p' fileNameFormat sessionId ext i w.
Proof.
  intros Hdir; induction fuel as [| fuel IH]; intros i w; [reflexivity |].
  cbn [probe]; unfold candidate; rewrite Hdir.
  unfold mbind, M_bind, Stat_IsNotExist.
  destruct (negb _); [reflexivity |].
  unfold emit. apply IH.
Qed.

Lemma bind_ext_l {A B : Type} (m m' : M A) (k : A -> M B) (w : World) :
  m w = m' w -> (m ≫= k) w = (m' ≫= k) w.
Proof. intros H; unfold mbind, M_bind; rewrite H; reflexivity. Qed.

Lemma bind_ext {A B : Type} (m : M A) (k k' : A -> M B) (w : World) :
  (forall (a : A) (w1 : World), k a w1 = k' a w1) -> (m ≫= k) w = (m ≫= k') w.
Proof.
  intros H; unfold mbind, M_bind.
  destruct (m w) as [[a w1] | |]; [apply H | reflexivity | reflexivity].
Qed.

Lemma download_same_output (p p' : NestDoorbellEventProcessor) (fuel : nat)
  (clip : ResourceUpdateEventCameraClipPreview) (w : World) :
  outputDir p = outputDir p' ->
  outputFileNameFormat p = outputFileNameFormat p' ->
  downloadAndSaveCameraClipPreview p fuel clip w
  = downloadAndSaveCameraClipPreview p' fuel clip w.
Proof.
  intros Hdir Hformat.
  unfold downloadAndSaveCameraClipPreview; rewrite Hformat.
  apply bind_ext; intros _ wa.
  destruct (client_Get (PreviewUrl clip)) as [err | resp]; [reflexivity |].
  apply bind_ext; intros extensions wb.
  apply bind_ext; intros now wc.
  apply bind_ext_l, probe_same_directory, Hdir.
Qed.

(** X14: the name of the doorbell device plays no part in the
    processing of an event: two processors with the same output directory
    and name format do the same on every event and world. *)
Theorem Process_any_device (p p' : NestDoorbellEventProcessor) (fuel : nat)
  (event : DeviceEvent) (w : World) :
  outputDir p = outputDir p' ->
  outputFileNameFormat p = outputFileNameFormat p' ->
  Process p fuel event w = Process p' fuel event w.
Proof.
  intros Hdir Hformat.
  assert (forall (format : string) (args : list value)
            (clipPreview : option ResourceUpdateEventCameraClipPreview),
             (emit (ELog format args);;
              match clipPreview with
              | Some clipPreview =>
                  err ← downloadAndSaveCameraClipPreview p fuel clipPreview;
                  match err with
                  | Some err => mret (Some err)
                  | None => mret None
                  end
              | None => mret None
              end) w
             = (emit (ELog format args);;
                match clipPreview with
                | Some clipPreview =>
                    err ← downloadAndSaveCameraClipPreview p' fuel clipPreview;
                    match err with
                    | Some err => mret (Some err)
                    | None => mret None
                    end
                | None => mret None
                end) w) as Hhandler.
  { intros format args [clip |]; [| reflexivity].
    unfold mbind, M_bind, emit.
    rewrite (download_same_output p p' fuel clip _ Hdir Hformat); reflexivity. }
  unfold Process, processResourceUpdateEvent.
  destruct (resourceUpdate event) as [ru |]; [| reflexivity].
  destruct (Events ru !! ResourceUpdateEventTypeDoorbellChime) as [raw |].
  { destruct (Unmarshal_DoorbellChime raw); [reflexivity | apply Hhandler]. }
  destruct (Events ru !! ResourceUpdateEventTypeCameraMotion) as [raw |].
  { destruct (Unmarshal_CameraMotion raw); [reflexivity | apply Hhandler]. }
  destruct (Events ru !! ResourceUpdateEventTypeCameraPerson) as [raw |].
  { destruct (Unmarshal_CameraPerson raw); [reflexivity | apply Hhandler]. }
  reflexivity.
Qed.

End Dispatch.

(** ** The [/list] endpoint on a range within one hour *)

Section WithinAnHour.

Import time.
Import server.

Context {env : ServerEnv}.



End WithinAnHour.

(** ** The further properties on examples *)


(** X4 on the range from 2023-06-14T10:15 to 2023-06-14T12:45: the hours
    10 and 11 are returned, the hour 12 is not. *)
Lemma listTargetDirectories_same_day_witness :
  server.listTargetDirectories 1
    (time.Date 2023 6 14 10 15 0 0) (time.Date 2023 6 14 12 45 0 0)
  = Ret ["2023/06/14/10"; "2023/06/14/11"].
Proof.
  assert (time.Year (time.Date 2023 6 14 10 15 0 0)
          = time.Year (time.Add (time.Date 2023 6 14 12 45 0 0) (- time.Nanosecond)))
    as Hy by (vm_compute; reflexivity).
  assert (time.Month (time.Date 2023 6 14 10 15 0 0)
          = time.Month (time.Add (time.Date 2023 6 14 12 45 0 0) (- time.Nanosecond)))
    as Hm by (vm_compute; reflexivity).
  assert (time.Day (time.Date 2023 6 14 10 15 0 0)
          = time.Day (time.Add (time.Date 2023 6 14 12 45 0 0) (- time.Nanosecond)))
    as Hd by (vm_compute; reflexivity).
  rewrite (listTargetDirectories_same_day 0 _ _ Hy Hm Hd).
  vm_compute; reflexivity.
Defined.

(** X6 on the range from 2023-11-30T12:00 to 2024-01-02T00:00. *)
Lemma listTargetDirectories_new_year_panics_witness :
  time.Date 2023 11 30 12 0 0 0 < time.Date 2024 1 2 0 0 0 0 /\
  server.listTargetDirectories 2
    (time.Date 2023 11 30 12 0 0 0) (time.Date 2024 1 2 0 0 0 0)
  = Panic "fromTs.Month() must not be larger than toTs".
Proof.
  split; [reflexivity |].
  assert (time.Year (time.Date 2023 11 30 12 0 0 0)
          <> time.Year (time.Add (time.Date 2024 1 2 0 0 0 0) (- time.Nanosecond)))
    as Hy by (vm_compute; discriminate).
  assert (2 <= time.Month (time.Date 2023 11 30 12 0 0 0) <= 11)
    as Hm by (vm_compute; split; discriminate).
  exact (listTargetDirectories_new_year_panics 0 _ _ Hy Hm).
Defined.

(** X7 on the range from 2023-12-15T00:00 to 2024-01-15T00:00, which
    begins in December. *)
Lemma listTargetDirectories_December_check_dead_witness :
  time.Month (time.Date 2023 12 15 0 0 0 0) = time.December /\
  server.listTargetDirectories 4
    (time.Date 2023 12 15 0 0 0 0) (time.Date 2024 1 15 0 0 0 0)
  <> Panic "fromTs.Month() must not be Descember".
Proof.
  split; [vm_compute; reflexivity |].
  apply (listTargetDirectories_December_check_dead 4); reflexivity.
Defined.

(** X16 on the range from 2023-06-10T12:00 to 2023-06-13T02:30: the
    days 11 and 12 and the hours 00 and 01 of the 13th are returned;
    nothing is for the 10th from 12:00, nor for the 13th from 02:00 to
    02:30. *)
Lemma listTargetDirectories_same_month_witness :
  server.listTargetDirectories 2
    (time.Date 2023 6 10 12 0 0 0) (time.Date 2023 6 13 2 30 0 0)
  = Ret ["2023/06/11"; "2023/06/12"; "2023/06/13/00"; "2023/06/13/01"].
Proof.
  assert (time.Date 2023 6 10 12 0 0 0 < time.Date 2023 6 13 2 30 0 0)
    as Hlt by reflexivity.
  assert (time.Year (time.Date 2023 6 10 12 0 0 0)
          = time.Year (time.Add (time.Date 2023 6 13 2 30 0 0) (- time.Nanosecond)))
    as Hy by (vm_compute; reflexivity).
  assert (time.Month (time.Date 2023 6 10 12 0 0 0)
          = time.Month (time.Add (time.Date 2023 6 13 2 30 0 0) (- time.Nanosecond)))
    as Hm by (vm_compute; reflexivity).
  assert (time.Day (time.Date 2023 6 10 12 0 0 0)
          <> time.Day (time.Add (time.Date 2023 6 13 2 30 0 0) (- time.Nanosecond)))
    as Hd by (vm_compute; discriminate).
  pose proof (listTargetDirectories_same_month 0 _ _ Hlt Hy Hm Hd) as H.
  cbv zeta in H; rewrite H.
  vm_compute; reflexivity.
Defined.

(** X10 on a message with a doorbell chime and a clip preview, in a world
    where the name of counter 0 is taken: the file that is there keeps its
    bytes, and the clip is written under the name of counter 1. *)
Lemma receive_keeps_files_witness :
  let m := {| consumer.ID := "m1"; consumer.Data := "chime https://nest.example/clip" |} in
  let w := {| consumer.fs :=
                {[ "output/2023/06/01/10" := consumer.FDir;
                   "output/2023/06/01/10/s1_0.mp4" := consumer.FFile "earlier" ]};
              consumer.clock := time.Date 2023 6 1 10 20 30 0;
              consumer.effects := [] |} in
  exists w' : consumer.World,
    consumer.receive (env := testbed.lab) testbed.processor 2 m w = Ret (tt, w') /\
    consumer.fs w' !! "output/2023/06/01/10/s1_0.mp4" = Some (consumer.FFile "earlier") /\
    consumer.fs w' !! "output/2023/06/01/10/s1_1.mp4" = Some (consumer.FFile "clip-bytes").
Proof.
  cbv zeta.
  match goal with
  | |- exists w', consumer.receive ?p ?fuel ?m ?w = _ /\ _ =>
      destruct (consumer.receive (env := testbed.lab) p fuel m w) as [[[] w'] | msg |] eqn:E;
        [| vm_compute in E; discriminate E | vm_compute in E; discriminate E];
        exists w'; split; [reflexivity |]; split;
        [apply (receive_keeps_files (env := testbed.lab) p fuel m w w' E);
         vm_compute; reflexivity |]
  end.
  vm_compute in E; injection E as <-; vm_compute; reflexivity.
Defined.

(** X11 on a name format without the placeholder, when the file of the
    hour is there. *)
Lemma download_never_returns_witness :
  let p := {| consumer.doorbellDeviceName := "enterprises/p/devices/d";
              consumer.outputDir := "output";
              consumer.outputFileNameFormat := "2006/01/02/15/clip" |} in
  let w := {| consumer.fs := {[ "output/2023/06/01/10/clip.mp4" := consumer.FFile "earlier" ]};
              consumer.clock := time.Date 2023 6 1 10 20 30 0;
              consumer.effects := [] |} in
  consumer.clipName (env := testbed.lab) p testbed.clip testbed.clipReply (consumer.clock w) 0
  = "output/2023/06/01/10/clip.mp4" /\
  consumer.downloadAndSaveCameraClipPreview (env := testbed.lab) p 1000 testbed.clip w
  = OutOfFuel.
Proof.
  cbv zeta; split; [vm_compute; reflexivity |].
  apply (download_never_returns (env := testbed.lab) _ 1000 testbed.clip testbed.clipReply);
    vm_compute; reflexivity.
Defined.

(** X12 on the clip of the stand-in, with the directory of the hour
    there. *)
Lemma download_into_directory_witness :
  let w := {| consumer.fs := {[ "output/2023/06/01/10" := consumer.FDir ]};
              consumer.clock := time.Date 2023 6 1 10 20 30 0;
              consumer.effects := [] |} in
  exists (w' : consumer.World) (new : list consumer.effect),
    consumer.downloadAndSaveCameraClipPreview (env := testbed.lab) testbed.processor 1
      testbed.clip w = Ret (None, w') /\
    consumer.fs w'
    = <[ "output/2023/06/01/10/s1_0.mp4" := consumer.FFile "clip-bytes" ]> (consumer.fs w) /\
    consumer.effects w' = consumer.effects w ++ new /\
    consumer.created new = ["output/2023/06/01/10/s1_0.mp4"].
Proof.
  cbv zeta.
  match goal with
  | |- exists w' new, consumer.downloadAndSaveCameraClipPreview _ _ _ ?w = _ /\ _ =>
      destruct (download_into_directory (env := testbed.lab) testbed.processor 0
                  testbed.clip testbed.clipReply w)
        as (w' & new & E & Hfs & Hnew & Hcreated);
        [vm_compute; reflexivity | vm_compute; reflexivity | vm_compute; reflexivity |];
        exists w', new
  end.
  split; [exact E |].
  split; [rewrite Hfs; vm_compute; reflexivity |].
  split; [exact Hnew |].
  rewrite Hcreated; vm_compute; reflexivity.
Defined.

(** X13 on a doorbell chime whose clip preview is a text that does not
    decode. *)
Lemma broken_clip_preview_only_logged_witness :
  let ru := {| consumer.Name := "enterprises/p/devices/d";
               consumer.Traits := ∅;
               consumer.Events :=
                 {[ consumer.ResourceUpdateEventTypeDoorbellChime := "s1 e1";
                    consumer.ResourceUpdateEventTypeCameraClipPreview := "garbage" ]} |} in
  let event := {| consumer.EventId := "e1"; consumer.Timestamp := "2023-06-01T10:00:00Z";
                  consumer.relationUpdate := None;
                  consumer.resourceUpdate := Some ru;
                  consumer.ResourceGroup := []; consumer.EventThreadId := None;
                  consumer.EventThreadState := None; consumer.UserId := "u1" |} in
  exists (r : option error) (w' : consumer.World),
    consumer.Process (env := testbed.lab) testbed.processor 0 event testbed.world0
    = Ret (r, w') /\
    consumer.fs w' = consumer.fs testbed.world0 /\
    (consumer.effects w' = consumer.effects testbed.world0 \/
     r = None /\
     exists (format : string) (text : string),
       consumer.effects w'
       = consumer.effects testbed.world0
         ++ [consumer.ELog format [consumer.VStr text; consumer.VStr "CameraClipPreview(nil)"]]).
Proof.
  cbv zeta.
  eapply (broken_clip_preview_only_logged (env := testbed.lab) testbed.processor 0 _ _
            "garbage" (errorString "json: cannot unmarshal string into Go value"));
    vm_compute; reflexivity.
Defined.

(** X14 on the event with all three primary events, for a processor that
    was started for another device. *)
Lemma Process_any_device_witness :
  let p' := {| consumer.doorbellDeviceName := "enterprises/p/devices/other";
               consumer.outputDir := "output";
               consumer.outputFileNameFormat := "2006/01/02/15/{eventSessionId}" |} in
  consumer.Process (env := testbed.lab) testbed.processor 1 testbed.crowdedEvent
    testbed.world0
  = consumer.Process (env := testbed.lab) p' 1 testbed.crowdedEvent testbed.world0.
Proof.
  cbv zeta.
  apply (Process_any_device (env := testbed.lab)); reflexivity.
Defined.

